(** * Quick-AI-Inference: a shallow embedding of the two scripts

    - [Vision]: image-support-with-openai-api.py
    - [Segmentation]: semantic-segmentation-huggingface-api.py

    Python values are an inductive type, exceptions are values of [result],
    and whatever a script prints is threaded through a small output/error
    monad [io].  The operating system, the network and the library codecs
    (base64, JSON, PNG) are fields of a [world] record: the scripts are
    functions of it. *)

From Stdlib Require Import ZArith QArith Qround List String Ascii Bool Lia DecimalString.
From Stdlib.Strings Require Byte.
Import ListNotations.

#[local] Set Warnings "-register-all".

Local Open Scope string_scope.
Local Open Scope Z_scope.

(* ===================================================================== *)
(** ** Python values, exceptions, printing *)
(* ===================================================================== *)

Module Py.

(** A row-major pixel grid, as [np.array(image)] lays it out. *)
Definition grid (A : Type) : Type := list (list A).

(** The values the scripts handle: what [json.loads] produces, plus PIL
    images of mode L (one 8-bit channel), the form in which a mask may
    already be decoded.  A float is carried by the rational it denotes;
    a dict is the list of its items in insertion order, keys being strings
    as in every JSON object. *)
Inductive value : Type :=
| VNone
| VBool (b : bool)
| VInt (n : Z)
| VFloat (q : Q)
| VStr (s : string)
| VList (l : list value)
| VDict (items : list (string * value))
| VImage (pixels : grid Z).

Inductive exn_class : Type :=
| Exception | OSError | RequestException | JSONDecodeError | ValueError
| KeyError | TypeError | AttributeError | IndexError | UnicodeEncodeError
| BinasciiError.   (* [binascii.Error], a [ValueError] *)

(** [SystemExit] derives from [BaseException] only, so that
    [except Exception] lets it through. *)
Inductive exn : Type :=
| Exn (cls : exn_class) (msg : string)
| SystemExit (code : Z).

Inductive result (A : Type) : Type :=
| Ok (a : A)
| Raise (e : exn).
Arguments Ok {A} a.
Arguments Raise {A} e.

Definition rbind {A B} (r : result A) (k : A -> result B) : result B :=
  match r with
  | Ok a => k a
  | Raise e => Raise e
  end.

(** [[k(x) for x in l]]: the first exception aborts the comprehension. *)
Fixpoint rmap {A B} (k : A -> result B) (l : list A) : result (list B) :=
  match l with
  | [] => Ok []
  | x :: xs => rbind (k x) (fun y => rbind (rmap k xs) (fun ys => Ok (y :: ys)))
  end.

(** *** Output and exceptions *)

(** A computation that prints: it receives the lines printed so far and
    returns them extended, with a value or the exception that stopped it. *)
Definition io (A : Type) : Type := list string -> list string * result A.

Definition ret {A} (a : A) : io A := fun out => (out, Ok a).
Definition raise {A} (e : exn) : io A := fun out => (out, Raise e).
Definition lift {A} (r : result A) : io A := fun out => (out, r).
(** [print(line)] for a line stdout always takes: ASCII text, the output
    of [json.dumps], text decoded from a response. *)
Definition print (line : string) : io unit := fun out => ((out ++ [line])%list, Ok tt).

(** [print(line)] for a line made from a JSON value.  [write] is
    [sys.stdout.write]: it raises [UnicodeEncodeError] when the encoding of
    stdout cannot encode the text, as for a str holding a lone surrogate,
    which [json.loads] yields from an escape such as \ud800; nothing of the
    line is then printed. *)
Definition print_text (write : string -> result unit) (line : string) : io unit :=
  fun out =>
    match write line with
    | Ok _ => ((out ++ [line])%list, Ok tt)
    | Raise e => (out, Raise e)
    end.

(** The call returned. *)
Definition is_ok {A} (r : result A) : bool :=
  match r with Ok _ => true | Raise _ => false end.
Definition bind {A B} (m : io A) (k : A -> io B) : io B :=
  fun out =>
    match m out with
    | (out', Ok a) => k a out'
    | (out', Raise e) => (out', Raise e)
    end.

(** [try: body / except Exception as e: handler(e)]. *)
Definition try_except {A} (body : io A) (handler : exn -> io A) : io A :=
  fun out =>
    match body out with
    | (out', Raise (Exn c m)) => handler (Exn c m) out'
    | other => other
    end.

(** [str(e)] for the exceptions of class [Exception]. *)
Definition str_exn (e : exn) : string :=
  match e with
  | Exn _ m => m
  | SystemExit c => NilZero.string_of_int (Z.to_int c)
  end.

(** What the operating system sees of a finished script. *)
Record outcome : Type := {
  stdout : list string;
  traceback : option exn;   (* the uncaught exception reported on stderr *)
  exit_code : Z
}.

(** Running a script body as [__main__]: a normal end exits 0, [exit(n)]
    exits n, and any other uncaught exception is reported and exits 1. *)
Definition run_main (body : io unit) : outcome :=
  match body [] with
  | (out, Ok _) => {| stdout := out; traceback := None; exit_code := 0 |}
  | (out, Raise (SystemExit c)) => {| stdout := out; traceback := None; exit_code := c |}
  | (out, Raise (Exn c m)) => {| stdout := out; traceback := Some (Exn c m); exit_code := 1 |}
  end.

(** *** Built-in operations on values *)

Definition str_of_Z (n : Z) : string := NilZero.string_of_int (Z.to_int n).

(** [type(v).__name__] *)
Definition type_name (v : value) : string :=
  match v with
  | VNone => "NoneType"
  | VBool _ => "bool"
  | VInt _ => "int"
  | VFloat _ => "float"
  | VStr _ => "str"
  | VList _ => "list"
  | VDict _ => "dict"
  | VImage _ => "Image"
  end.

(** [str(v)], as an f-string formats [v].  The text of a float, a container
    or an image object is left to [repr]. *)
Definition py_str (repr : value -> string) (v : value) : string :=
  match v with
  | VStr s => s
  | VNone => "None"
  | VBool true => "True"
  | VBool false => "False"
  | VInt n => str_of_Z n
  | _ => repr v
  end.

(** [str(type(v))] *)
Definition str_type (v : value) : string :=
  "<class '" ++ type_name v ++ "'>".

Fixpoint dict_get (key : string) (items : list (string * value)) : option value :=
  match items with
  | [] => None
  | (k, v) :: rest => if String.eqb k key then Some v else dict_get key rest
  end.

Definition dict_has (key : string) (items : list (string * value)) : bool :=
  match dict_get key items with Some _ => true | None => false end.

Fixpoint is_prefix (p s : string) : bool :=
  match p, s with
  | EmptyString, _ => true
  | String a p', String b s' => Ascii.eqb a b && is_prefix p' s'
  | String _ _, EmptyString => false
  end.

(** [sub in s] on two strings *)
Fixpoint str_contains (sub s : string) : bool :=
  is_prefix sub s ||
  match s with
  | EmptyString => false
  | String _ s' => str_contains sub s'
  end.

Definition is_str (key : string) (v : value) : bool :=
  match v with VStr s => String.eqb s key | _ => false end.

Fixpoint chars (s : string) : list value :=
  match s with
  | EmptyString => []
  | String a s' => VStr (String a EmptyString) :: chars s'
  end.

(** [key in v] for a string [key] *)
Definition py_in (key : string) (v : value) : result bool :=
  match v with
  | VDict items => Ok (dict_has key items)
  | VList l => Ok (existsb (is_str key) l)
  | VStr s => Ok (str_contains key s)
  | _ => Raise (Exn TypeError ("argument of type '" ++ type_name v ++ "' is not iterable"))
  end.

(** [v[key]] for a string [key] *)
Definition py_getitem (v : value) (key : string) : result value :=
  match v with
  | VDict items =>
      match dict_get key items with
      | Some x => Ok x
      | None => Raise (Exn KeyError ("'" ++ key ++ "'"))
      end
  | VList _ => Raise (Exn TypeError "list indices must be integers or slices, not str")
  | VStr _ => Raise (Exn TypeError "string indices must be integers, not 'str'")
  | _ => Raise (Exn TypeError ("'" ++ type_name v ++ "' object is not subscriptable"))
  end.

(** The elements a [for] visits in [v] *)
Definition py_iter (v : value) : result (list value) :=
  match v with
  | VList l => Ok l
  | VDict items => Ok (map (fun kv => VStr (fst kv)) items)
  | VStr s => Ok (chars s)
  | _ => Raise (Exn TypeError ("'" ++ type_name v ++ "' object is not iterable"))
  end.

(** [v.get(key, default)] *)
Definition py_get (v : value) (key : string) (default : value) : result value :=
  match v with
  | VDict items =>
      Ok (match dict_get key items with Some x => x | None => default end)
  | _ => Raise (Exn AttributeError
                  ("'" ++ type_name v ++ "' object has no attribute 'get'"))
  end.

(** [enumerate(l)] *)
Fixpoint enumerate_from {A} (i : Z) (l : list A) : list (Z * A) :=
  match l with
  | [] => []
  | x :: xs => (i, x) :: enumerate_from (i + 1) xs
  end.
Definition enumerate {A} (l : list A) : list (Z * A) := enumerate_from 0 l.

(** Printing in a [for] loop whose body only prints. *)
Fixpoint for_print {A} (l : list A) (body : A -> io unit) : io unit :=
  match l with
  | [] => ret tt
  | x :: xs => bind (body x) (fun _ => for_print xs body)
  end.

(** [s * n] on a string *)
Fixpoint str_repeat (s : string) (n : nat) : string :=
  match n with
  | O => ""
  | S n' => s ++ str_repeat s n'
  end.

(** An HTTP response as [requests] hands it over. *)
Record response : Type := {
  status_code : Z;
  text : string
}.

End Py.

Module PyNotations.
  Notation "x <- m ;; k" := (Py.bind m (fun x => k))
    (at level 61, m at next level, right associativity).
  Notation "m ;;; k" := (Py.bind m (fun _ => k))
    (at level 61, right associativity).
End PyNotations.

(* ===================================================================== *)
(** ** image-support-with-openai-api.py *)
(* ===================================================================== *)

Module Vision.
Import Py PyNotations.

(** What the script takes from outside itself. *)
Record world : Type := {
  (** [open(path, "rb").read()] *)
  read_bytes : string -> result (list Byte.byte);
  (** [base64.b64encode(data).decode('utf-8')] *)
  b64encode : list Byte.byte -> string;
  (** [os.getenv("OPENAI_API_KEY")] *)
  getenv_api_key : option string;
  (** [get_prompt.get_instructions()]; the module [get_prompt] is imported
      by the script and is not part of the sources. *)
  get_instructions : string;
  (** [requests.post(url, headers=..., json=...)] *)
  post : string -> list (string * string) -> value -> result response;
  (** [json.loads], which [response.json()] applies to the body *)
  json_loads : string -> result value;
  (** [repr(v)] of floats and containers *)
  repr : value -> string;
  (** [sys.stdout.write(text)] *)
  stdout_write : string -> result unit
}.

Definition OPENAI_MODEL : string := "gpt-4o-mini".
Definition MAX_TOKENS : Z := 2000.
Definition TEMPERATURE : Q := 7 # 10.

(** f"{api_key}" *)
Definition fmt_env (v : option string) : string :=
  match v with Some s => s | None => "None" end.

(** [response.json()] *)
Definition response_json (w : world) (r : response) : result value :=
  json_loads w (text r).

Definition encode_image (w : world) (image_path : string) : result string :=
  rbind (read_bytes w image_path) (fun data => Ok (b64encode w data)).

Definition headers (w : world) : list (string * string) :=
  [("Content-Type", "application/json");
   ("Authorization", "Bearer " ++ fmt_env (getenv_api_key w))].

Definition payload (prompt base64_image : string) : value :=
  VDict
    [("model", VStr OPENAI_MODEL);
     ("messages",
      VList
        [VDict
           [("role", VStr "user");
            ("content",
             VList
               [VDict [("type", VStr "text"); ("text", VStr prompt)];
                VDict
                  [("type", VStr "image_url");
                   ("image_url",
                    VDict [("url", VStr ("data:image/jpeg;base64," ++ base64_image))])]])]]);
     ("max_tokens", VInt MAX_TOKENS);
     ("temperature", VFloat TEMPERATURE)].

Definition make_text_image_request (w : world) (prompt image_path : string)
  : result value :=
  rbind (encode_image w image_path) (fun base64_image =>
  rbind (post w "https://api.openai.com/v1/chat/completions" (headers w)
           (payload prompt base64_image)) (fun response =>
  rbind (response_json w response) (fun response_data =>
  Ok response_data))).

Definition read_content (response_data : value) : result (list value) :=
  rbind (py_in "choices" response_data) (fun present =>
  if negb present then Ok []
  else
    rbind (py_getitem response_data "choices") (fun choices =>
    rbind (py_iter choices) (fun elems =>
    rmap (fun choice =>
            rbind (py_getitem choice "message") (fun message =>
            py_getitem message "content"))
         elems))).

(** The two [print] calls of the loop body *)
Definition print_result (w : world) (ic : Z * value) : io unit :=
  print_text (stdout_write w)
    (str_of_Z (fst ic) ++ String "010"%char (py_str (repr w) (snd ic))) ;;;
  print (str_repeat "----" 10).

Definition main_body (w : world) : io unit :=
  let prompt := get_instructions w in
  let image_path := "my_img.jpg" in
  response_data <- lift (make_text_image_request w prompt image_path) ;;
  contents <- lift (read_content response_data) ;;
  for_print (enumerate contents) (print_result w) ;;;
  print "Done".

Definition main (w : world) : outcome := run_main (main_body w).

End Vision.

(* ===================================================================== *)
(** ** semantic-segmentation-huggingface-api.py *)
(* ===================================================================== *)

Module Segmentation.
Import Py PyNotations.

Definition rgb : Type := (Z * Z * Z)%type.

(** What the script takes from outside itself.  Images are exchanged as
    pixel grids: an RGB grid for the photograph, a one-channel grid for a
    mask. *)
Record world : Type := {
  (** [open(path, "rb").read()] *)
  read_bytes : string -> result (list Byte.byte);
  (** [os.getenv("HUGGINGFACE_API_TOKEN")] *)
  getenv_api_token : option string;
  (** [requests.post(url, headers=..., data=...)] *)
  post : string -> list (string * string) -> list Byte.byte -> result response;
  (** [json.loads], which [response.json()] applies to the body *)
  json_loads : string -> result value;
  (** [json.dumps(v, indent=2)] *)
  json_dumps : value -> string;
  (** [np.array(Image.open(path))] *)
  image_open : string -> result (grid rgb);
  (** [Image.open(io.BytesIO(base64.b64decode(s)))] *)
  open_b64_image : string -> result (grid Z);
  (** [repr(v)] of floats and containers *)
  repr : value -> string;
  (** [sys.stdout.write(text)] *)
  stdout_write : string -> result unit
}.

Definition API_URL : string :=
  "https://api-inference.huggingface.co/models/nvidia/segformer-b0-finetuned-ade-512-512".

Definition fmt_env (v : option string) : string :=
  match v with Some s => s | None => "None" end.

Definition headers (w : world) : list (string * string) :=
  [("Authorization", "Bearer " ++ fmt_env (getenv_api_token w));
   ("x-wait-for-model", "true");
   ("Content-Type", "application/octet-stream")].

Definition palette : list rgb :=
  [(230, 25, 75);    (* red *)
   (60, 180, 75);    (* green *)
   (255, 225, 25);   (* yellow *)
   (0, 130, 200);    (* blue *)
   (245, 130, 48);   (* orange *)
   (145, 30, 180);   (* purple *)
   (70, 240, 240);   (* cyan *)
   (240, 50, 230);   (* magenta *)
   (210, 245, 60);   (* lime *)
   (250, 190, 190)]. (* pink *)

Definition black : rgb := (0, 0, 0).

(** [response.json()] *)
Definition response_json (w : world) (r : response) : result value :=
  json_loads w (text r).

Definition query_image (w : world) (image_path : string) : result value :=
  rbind (read_bytes w image_path) (fun image_bytes =>
  rbind (post w API_URL (headers w) image_bytes) (fun response =>
  if negb (status_code response =? 200) then
    Raise (Exn Exception
             ("Request failed: " ++ str_of_Z (status_code response)
                ++ ", " ++ text response))
  else response_json w response)).

(** *** The label-to-color dict *)

(** [hash(v)] succeeds: lists and dicts are unhashable, and so are PIL
    images, whose class defines [__eq__] alone. *)
Definition hashable (v : value) : bool :=
  match v with
  | VList _ | VDict _ | VImage _ => false
  | _ => true
  end.

(** Booleans, ints and floats compare by numeric value. *)
Definition num_of (v : value) : option Q :=
  match v with
  | VBool b => Some (if b then 1%Q else 0%Q)
  | VInt n => Some (inject_Z n)
  | VFloat q => Some q
  | _ => None
  end.

(** [a == b] on hashable values, the equality dict keys are found by. *)
Definition key_eqb (a b : value) : bool :=
  match a, b with
  | VNone, VNone => true
  | VStr s, VStr t => String.eqb s t
  | _, _ =>
      match num_of a, num_of b with
      | Some x, Some y => Qeq_bool x y
      | _, _ => false
      end
  end.

(** The dict as its items in insertion order. *)
Definition color_map : Type := list (value * rgb).

Fixpoint color_lookup (label : value) (m : color_map) : option rgb :=
  match m with
  | [] => None
  | (k, c) :: rest => if key_eqb k label then Some c else color_lookup label rest
  end.

(** Lines 79-84: the color of [label], allocated on its first sighting. *)
Definition assign_color (label : value) (m : color_map) : result (color_map * rgb) :=
  if negb (hashable label) then
    Raise (Exn TypeError ("unhashable type: '" ++ type_name label ++ "'"))
  else
    let m' :=
      match color_lookup label m with
      | None =>
          let palette_index := Z.of_nat (List.length m) mod Z.of_nat (List.length palette) in
          (m ++ [(label, nth (Z.to_nat palette_index) palette black)])%list
      | Some _ => m
      end in
    match color_lookup label m' with
    | Some color => Ok (m', color)
    | None => Raise (Exn KeyError (type_name label))
    end.

(** *** Pixel grids *)

Fixpoint zip_with {A B C} (f : A -> B -> C) (la : list A) (lb : list B) : list C :=
  match la, lb with
  | a :: la', b :: lb' => f a b :: zip_with f la' lb'
  | _, _ => []
  end.

Fixpoint rows_match {A B} (a : grid A) (b : grid B) : bool :=
  match a, b with
  | [], [] => true
  | ra :: a', rb :: b' => Nat.eqb (List.length ra) (List.length rb) && rows_match a' b'
  | _, _ => false
  end.

(** [grid[i][j]] *)
Definition pixel {A} (d : A) (g : grid A) (i j : nat) : A :=
  nth j (nth i g []) d.

(** [np.zeros((height, width, 3), dtype=np.uint8)] *)
Definition zeros (height width : nat) : grid rgb :=
  repeat (repeat black width) height.

(** [arr.shape[:2]] *)
Definition shape {A} (g : grid A) : nat * nat :=
  (List.length g, match g with [] => O | row :: _ => List.length row end).

(** [mask_np > 128] *)
Definition threshold (mask_np : grid Z) : grid bool :=
  map (map (fun p => 128 <? p)) mask_np.

(** [overlay[binary_mask] = color]: numpy refuses a boolean index whose
    shape is not that of the indexed rows and columns. *)
Definition set_masked (overlay : grid rgb) (binary_mask : grid bool) (color : rgb)
  : result (grid rgb) :=
  if rows_match overlay binary_mask then
    Ok (zip_with (zip_with (fun px (m : bool) => if m then color else px))
          overlay binary_mask)
  else
    Raise (Exn IndexError "boolean index did not match indexed array").

(** [.astype(np.uint8)] on a float: the fraction is dropped, and the integer
    kept modulo 2^8. *)
Definition astype_uint8 (x : Q) : Z :=
  Z.quot (Qnum x) (Zpos (Qden x)) mod 256.

Definition alpha : Q := 1 # 2.

(** One channel of [alpha * orig_np + (1 - alpha) * overlay].  Both products
    are multiples of 1/2 below 2^9, which binary64 represents and adds
    exactly. *)
Definition mix (o v : Z) : Q :=
  alpha * inject_Z o + (1 - alpha) * inject_Z v.

Definition blend_pixel (o v : rgb) : rgb :=
  let '(o1, o2, o3) := o in
  let '(v1, v2, v3) := v in
  (astype_uint8 (mix o1 v1), astype_uint8 (mix o2 v2), astype_uint8 (mix o3 v3)).

Definition blend (orig_np overlay : grid rgb) : grid rgb :=
  zip_with (zip_with blend_pixel) orig_np overlay.

(** *** plot_segmentation_map *)

(** The variables the loop updates. *)
Record locals : Type := {
  overlay : grid rgb;
  label_to_color : color_map
}.

(** [Patch(facecolor=np.array(color)/255, label=label)] *)
Record patch : Type := {
  facecolor : Q * Q * Q;
  patch_label : value
}.

(** What matplotlib was asked to draw and to save. *)
Record figure : Type := {
  shown : grid rgb;
  title : string;
  legend : list patch;
  saved_as : string
}.

Definition make_patch (lc : value * rgb) : patch :=
  let '(label, (r, g, b)) := lc in
  {| facecolor := (inject_Z r / 255, inject_Z g / 255, inject_Z b / 255)%Q;
     patch_label := label |}.

(** Lines 66-73: [Some] image to go on with, [None] for [continue]. *)
Definition decode_mask (w : world) (label mask_data : value)
  : io (option (grid Z)) :=
  match mask_data with
  | VStr s => mask_image <- lift (open_b64_image w s) ;; ret (Some mask_image)
  | VImage mask_image => ret (Some mask_image)
  | _ =>
      print_text (stdout_write w)
        ("Unexpected mask type for " ++ py_str (repr w) label ++ ": "
           ++ str_type mask_data) ;;;
      ret None
  end.

(** Lines 62-85: one turn of the loop. *)
Definition loop_body (w : world) (result : value) (st : locals) : io locals :=
  label <- lift (py_get result "label" (VStr "unknown")) ;;
  mask_data <- lift (py_get result "mask" VNone) ;;
  decoded <- decode_mask w label mask_data ;;
  match decoded with
  | None => ret st
  | Some mask_np =>
      let binary_mask := threshold mask_np in
      mc <- lift (assign_color label (label_to_color st)) ;;
      overlay' <- lift (set_masked (overlay st) binary_mask (snd mc)) ;;
      ret {| overlay := overlay'; label_to_color := fst mc |}
  end.

Fixpoint for_results (w : world) (results : list value) (st : locals) : io locals :=
  match results with
  | [] => ret st
  | result :: rest => st' <- loop_body w result st ;; for_results w rest st'
  end.

(** Lines 56-59 *)
Definition init_locals (orig_np : grid rgb) : locals :=
  let '(height, width) := shape orig_np in
  {| overlay := zeros height width; label_to_color := [] |}.

(** Lines 56-85: the overlay and the color map the loop ends with. *)
Definition compose_overlay (w : world) (orig_np : grid rgb)
    (segmentation_results : value) : io locals :=
  results <- lift (py_iter segmentation_results) ;;
  for_results w results (init_locals orig_np).

(** The whole function, for an RGB original already decoded: the blend of
    line 89 and the calls into matplotlib of lines 91-102 are taken to
    return, and what is stated of the figure is stated of calls that do. *)
Definition plot_segmentation_map (w : world) (orig_np : grid rgb)
    (segmentation_results : value) (output_path : string) : io figure :=
  st <- compose_overlay w orig_np segmentation_results ;;
  let blended := blend orig_np (overlay st) in
  let patches := map make_patch (label_to_color st) in
  print ("Segmentation map saved as " ++ output_path) ;;;
  ret {| shown := blended;
         title := "Semantic Segmentation Map";
         legend := patches;
         saved_as := output_path |}.

Definition main_body (w : world) : io unit :=
  let image_path := "image-of-road.jpg" in
  original_image <- lift (image_open w image_path) ;;
  segmentation_results <-
    try_except
      (r <- lift (query_image w image_path) ;;
       print "API Response:" ;;;
       print (json_dumps w r) ;;;
       ret r)
      (fun e => print (str_exn e) ;;; raise (SystemExit 1)) ;;
  plot_segmentation_map w original_image segmentation_results "segmentation_map.png" ;;;
  print "Done".

Definition main (w : world) : outcome := run_main (main_body w).

End Segmentation.

(* ===================================================================== *)
(** ** Vocabulary of the specification *)
(* ===================================================================== *)

Module Spec.
Import Py Segmentation.


(** A choice that has [message.content]. *)
Definition has_content (choice content : value) : Prop :=
  exists fields message,
    choice = VDict fields /\
    dict_get "message" fields = Some (VDict message) /\
    dict_get "content" message = Some content.

(** The two lines the vision script prints for the result of index [i]. *)
Definition lines_of (w : Vision.world) (ic : Z * value) : list string :=
  [str_of_Z (fst ic) ++ String "010"%char (py_str (Vision.repr w) (snd ic));
   "----------------------------------------"].

(** The lines the vision script prints for its results. *)
Definition result_lines (w : Vision.world) (contents : list value) : list string :=
  flat_map (lines_of w) (enumerate contents).

(** The same world, answering every request with [r]. *)
Definition answering (w : Vision.world) (r : response) : Vision.world :=
  {| Vision.read_bytes := Vision.read_bytes w;
     Vision.b64encode := Vision.b64encode w;
     Vision.getenv_api_key := Vision.getenv_api_key w;
     Vision.get_instructions := Vision.get_instructions w;
     Vision.post := fun _ _ _ => Ok r;
     Vision.json_loads := Vision.json_loads w;
     Vision.repr := Vision.repr w;
     Vision.stdout_write := Vision.stdout_write w |}.

(** [round(x)]: to the nearest integer, a tie going to the even one. *)
Definition py_round (x : Q) : Z :=
  let f := Qfloor x in
  match (x - inject_Z f ?= 1 # 2)%Q with
  | Lt => f
  | Gt => f + 1
  | Eq => if Z.even f then f else f + 1
  end.

(** Rounding to the nearest integer, a tie going up. *)
Definition round_half_up (x : Q) : Z := Qfloor (x + (1 # 2)).

(** The blend of the end-to-end scenario as the specification words it,
    for a rounding [rnd]. *)
Definition rounded_blend (rnd : Q -> Z) (o : Z) (c : rgb) : rgb :=
  let '(c1, c2, c3) := c in
  (rnd (mix o c1), rnd (mix o c2), rnd (mix o c3)).

(** The blend with the fraction dropped. *)
Definition floored_blend (o : Z) (c : rgb) : rgb :=
  let '(c1, c2, c3) := c in
  (Qfloor (mix o c1), Qfloor (mix o c2), Qfloor (mix o c3)).

(** The palette entry a dict of [n] labels hands to the next new label. *)
Definition palette_at (n : nat) : rgb :=
  nth (n mod 10) palette black.

(** Successive sightings of labels: the colors handed out, and the dict
    left behind. *)
Fixpoint sightings (labels : list value) (m : color_map)
  : result (color_map * list rgb) :=
  match labels with
  | [] => Ok (m, [])
  | label :: rest =>
      rbind (assign_color label m) (fun mc =>
      rbind (sightings rest (fst mc)) (fun r =>
      Ok (fst r, snd mc :: snd r)))
  end.

(** No label equals, as a dict key, a label before it. *)
Fixpoint keys_distinct (labels : list value) : bool :=
  match labels with
  | [] => true
  | x :: rest => negb (existsb (key_eqb x) rest) && keys_distinct rest
  end.

(** The distinct values of a list, each at its first occurrence. *)
Fixpoint first_seen (labels : list value) : list value :=
  match labels with
  | [] => []
  | x :: rest => x :: filter (fun y => negb (key_eqb x y)) (first_seen rest)
  end.

(** The label the loop gives an entry. *)
Definition entry_label (r : value) : value :=
  match r with
  | VDict items =>
      match dict_get "label" items with Some l => l | None => VStr "unknown" end
  | _ => VNone
  end.

(** The mask field of an entry, as [result.get("mask")] reads it. *)
Definition entry_mask_data (r : value) : value :=
  match r with
  | VDict items =>
      match dict_get "mask" items with Some m => m | None => VNone end
  | _ => VNone
  end.

(** The mask is a base64 string or an image object. *)
Definition mask_recognized (r : value) : bool :=
  match entry_mask_data r with
  | VStr _ | VImage _ => true
  | _ => false
  end.

(** The binary mask of an entry, when its mask decodes. *)
Definition entry_mask (w : world) (r : value) : option (grid bool) :=
  match entry_mask_data r with
  | VImage g => Some (threshold g)
  | VStr s =>
      match open_b64_image w s with
      | Ok g => Some (threshold g)
      | Raise _ => None
      end
  | _ => None
  end.

Definition covers (w : world) (i j : nat) (r : value) : bool :=
  match entry_mask w r with
  | Some binary_mask => pixel false binary_mask i j
  | None => false
  end.

(** The last result, in input order, whose binary mask is True at (i, j). *)
Definition last_covering (w : world) (results : list value) (i j : nat)
  : option value :=
  find (covers w i j) (rev results).

(** A grid of [h] rows of [w] pixels. *)
Definition has_shape {A} (g : grid A) (h w : nat) : Prop :=
  List.length g = h /\ Forall (fun row => List.length row = w) g.

(** The color a label was assigned. *)
Definition color_of (m : color_map) (label : value) : rgb :=
  match color_lookup label m with Some c => c | None => black end.

(** The diagnostic printed for an entry that is skipped. *)
Definition diagnostic (w : world) (r : value) : string :=
  "Unexpected mask type for " ++ py_str (repr w) (entry_label r) ++ ": "
    ++ str_type (entry_mask_data r).

(** The mask of the entry was decoded. *)
Definition decodes (w : world) (r : value) : bool :=
  match entry_mask w r with Some _ => true | None => false end.

(** The labels of the entries whose mask was decoded, in input order. *)
Definition decoded_labels (w : world) (results : list value) : list value :=
  map entry_label (filter (decodes w) results).

(** [g] has [h] rows of [w] pixels, decided. *)
Definition grid_has_shape {A} (g : grid A) (h w : nat) : bool :=
  Nat.eqb (List.length g) h && forallb (fun row => Nat.eqb (List.length row) w) g.

(** An entry the loop gets through for an image of [h] rows and [wd]
    columns: a dict whose mask is of no recognized type and whose
    diagnostic stdout takes, or one whose mask decodes to that size and
    whose label is hashable. *)
Definition entry_ok (w : world) (h wd : nat) (r : value) : bool :=
  match r with
  | VDict _ =>
      negb (mask_recognized r) && is_ok (stdout_write w (diagnostic w r)) ||
      match entry_mask w r with
      | Some binary_mask => grid_has_shape binary_mask h wd && hashable (entry_label r)
      | None => false
      end
  | _ => false
  end.

(** [y] equals, as a dict key, one of [keys]. *)
Definition key_in (keys : list value) (y : value) : bool :=
  existsb (fun k => key_eqb k y) keys.

End Spec.

(* ===================================================================== *)
(** ** Concrete runs *)
(* ===================================================================== *)

Module Scenario.
Import Py.

(** A vision world: [my_img.jpg] holds two bytes, and the API answers [r]. *)
Definition vision_world (r : response) (loads : string -> result value)
  : Vision.world :=
  {| Vision.read_bytes := fun path =>
       if String.eqb path "my_img.jpg" then Ok [Byte.x68; Byte.x69]
       else Raise (Exn OSError "[Errno 2] No such file or directory");
     Vision.b64encode := fun _ => "aGk=";
     Vision.getenv_api_key := Some "sk-test";
     Vision.get_instructions := "Describe the image.";
     Vision.post := fun _ _ _ => Ok r;
     Vision.json_loads := loads;
     Vision.repr := fun _ => "";
     Vision.stdout_write := fun _ => Ok tt |}.

(** The same, without the image file. *)
Definition vision_world_no_file : Vision.world :=
  {| Vision.read_bytes := fun _ =>
       Raise (Exn OSError "[Errno 2] No such file or directory: 'my_img.jpg'");
     Vision.b64encode := fun _ => "";
     Vision.getenv_api_key := Some "sk-test";
     Vision.get_instructions := "Describe the image.";
     Vision.post := fun _ _ _ => Ok {| status_code := 200; text := "{}" |};
     Vision.json_loads := fun _ => Ok (VDict []);
     Vision.repr := fun _ => "";
     Vision.stdout_write := fun _ => Ok tt |}.

Definition two_choices : value :=
  VDict
    [("choices",
      VList
        [VDict [("message", VDict [("content", VStr "a")])];
         VDict [("message", VDict [("content", VStr "b")])]])].

Definition no_choices : value :=
  VDict [("error", VDict [("message", VStr "Incorrect API key provided")])].

Definition gray100 : Segmentation.rgb := (100, 100, 100).

(** The 2x2 image of the end-to-end scenario. *)
Definition image_2x2 : grid Segmentation.rgb :=
  [[gray100; gray100]; [gray100; gray100]].

Definition top_row_mask : grid Z := [[255; 255]; [0; 0]].
Definition left_column_mask : grid Z := [[255; 0]; [255; 0]].
Definition empty_mask : grid Z := [[0; 0]; [0; 0]].

Definition entry (label : string) (mask : value) : value :=
  VDict [("label", VStr label); ("mask", mask)].

Definition grass_results : value :=
  VList [entry "grass" (VImage top_row_mask)].

(** A segmentation world whose API answers [r]; base64 text does not
    decode. *)
Definition seg_world (r : response) (loads : string -> result value)
  : Segmentation.world :=
  {| Segmentation.read_bytes := fun _ => Ok [Byte.x68; Byte.x69];
     Segmentation.getenv_api_token := Some "hf-test";
     Segmentation.post := fun _ _ _ => Ok r;
     Segmentation.json_loads := loads;
     Segmentation.json_dumps := fun _ => "[]";
     Segmentation.image_open := fun _ => Ok image_2x2;
     Segmentation.open_b64_image := fun _ => Raise (Exn ValueError "not an image");
     Segmentation.repr := fun _ => "";
     Segmentation.stdout_write := fun _ => Ok tt |}.


Definition ok_empty : response :=
  {| status_code := 200; text := "[]" |}.


Definition quiet_world : Segmentation.world :=
  seg_world ok_empty (fun _ => Ok (VList [])).

(** C1 as the specification words it, for a rounding [rnd]: the figure of
    the end-to-end scenario shows the rounded blend. *)
Definition blend_is_rounded (rnd : Q -> Z) : Prop :=
  exists out fig,
    Segmentation.plot_segmentation_map quiet_world image_2x2 grass_results
      "segmentation_map.png" [] = (out, Ok fig) /\
    Segmentation.shown fig =
    [[Spec.rounded_blend rnd 100 (nth 0 Segmentation.palette Segmentation.black);
      Spec.rounded_blend rnd 100 (nth 0 Segmentation.palette Segmentation.black)];
     [Spec.rounded_blend rnd 100 Segmentation.black;
      Spec.rounded_blend rnd 100 Segmentation.black]].

Definition road_sky_road_car : list value :=
  [VStr "road"; VStr "sky"; VStr "road"; VStr "car"].

Definition eleven_labels : list value :=
  map VInt [0; 1; 2; 3; 4; 5; 6; 7; 8; 9; 10].

(** Three results: one skipped, one whose mask is empty, one painted. *)
Definition mixed_results : list value :=
  [entry "sky" VNone; entry "road" (VImage empty_mask);
   entry "car" (VImage top_row_mask)].

(** Two overlapping results. *)
Definition overlapping_results : list value :=
  [entry "grass" (VImage top_row_mask); entry "tree" (VImage left_column_mask)].

(** An entry without a label. *)
Definition unlabeled : list (string * value) := [("mask", VImage top_row_mask)].

End Scenario.

(* ===================================================================== *)
(** ** Further vocabulary *)
(* ===================================================================== *)

Module Props.
Import Py Segmentation Spec.

(** A choice on which [choice["message"]["content"]] raises [KeyError],
    with the key that is missing. *)
Inductive missing_field : value -> string -> Prop :=
| no_message fields :
    dict_get "message" fields = None ->
    missing_field (VDict fields) "message"
| no_content fields message :
    dict_get "message" fields = Some (VDict message) ->
    dict_get "content" message = None ->
    missing_field (VDict fields) "content".

(** [choice["message"]["content"]], the element of the comprehension in
    [read_content]. *)
Definition content_of (choice : value) : result value :=
  rbind (py_getitem choice "message") (fun message => py_getitem message "content").

(** The line the vision script prints for the result of index [i], before
    the line of dashes. *)
Definition content_line (w : Vision.world) (ic : Z * value) : string :=
  str_of_Z (fst ic) ++ String "010"%char (py_str (Vision.repr w) (snd ic)).

(** stdout takes the line of every result. *)
Definition results_writable (w : Vision.world) (contents : list value) : bool :=
  forallb (fun ic => is_ok (Vision.stdout_write w (content_line w ic)))
    (enumerate contents).

(** A palette color as matplotlib takes it, each channel divided by 255. *)
Definition unit_scale (c : rgb) : Q * Q * Q :=
  let '(r, g, b) := c in
  (inject_Z r / 255, inject_Z g / 255, inject_Z b / 255)%Q.

(** The mask image of an entry, when its mask decodes. *)
Definition entry_mask_image (w : world) (r : value) : option (grid Z) :=
  match entry_mask_data r with
  | VImage g => Some g
  | VStr s =>
      match open_b64_image w s with
      | Ok g => Some g
      | Raise _ => None
      end
  | _ => None
  end.

(** The three channels are 8-bit values. *)
Definition is_uint8 (c : rgb) : bool :=
  let '(r, g, b) := c in
  (0 <=? r) && (r <=? 255) && (0 <=? g) && (g <=? 255) && (0 <=? b) && (b <=? 255).

(** An RGB image of 8-bit channels. *)
Definition uint8_image (img : grid rgb) : bool :=
  forallb (forallb is_uint8) img.

(** The mean of two pixels, channel by channel, the half dropped. *)
Definition half_sum (o v : rgb) : rgb :=
  let '(o1, o2, o3) := o in
  let '(v1, v2, v3) := v in
  ((o1 + v1) / 2, (o2 + v2) / 2, (o3 + v3) / 2).

(** An RGB color as matplotlib takes it: three floats between 0 and 1. *)
Definition unit_color (c : Q * Q * Q) : Prop :=
  let '(r, g, b) := c in
  (0 <= r <= 1 /\ 0 <= g <= 1 /\ 0 <= b <= 1)%Q.

(** Every row has the length of the first one. *)
Definition rectangular {A} (g : grid A) : Prop :=
  has_shape g (fst (shape g)) (snd (shape g)).

(** The entries the loop skips. *)
Definition skipped (results : list value) : list value :=
  filter (fun r => negb (mask_recognized r)) results.

(** No value of the mask is above the threshold. *)
Definition no_foreground (mask_np : grid Z) : bool :=
  forallb (forallb (fun p => p <=? 128)) mask_np.

(** The lines the segmentation script prints once the API has answered. *)
Definition response_lines (w : world) (segmentation_results : value) : list string :=
  ["API Response:"; json_dumps w segmentation_results].

End Props.

(* ===================================================================== *)
(** ** Further concrete runs *)
(* ===================================================================== *)

Module Runs.
Import Py.

(** The three bytes that stand for the lone surrogate U+D800 in a str. *)
Definition lone_surrogate : string :=
  String "237"%char (String "160"%char (String "128"%char EmptyString)).

(** A UTF-8 stdout: it refuses a text holding the lone surrogate, with the
    exception CPython raises when the surrogate is at [position]. *)
Definition utf8_write (position : string) (text : string) : result unit :=
  if str_contains lone_surrogate text then
    Raise (Exn UnicodeEncodeError
             ("'utf-8' codec can't encode character '\ud800' in position "
                ++ position ++ ": surrogates not allowed"))
  else Ok tt.

(** A vision world whose answer parses to [response_data], on a UTF-8
    stdout. *)
Definition vision_utf8_world (response_data : value) : Vision.world :=
  {| Vision.read_bytes := fun _ => Ok [Byte.x68; Byte.x69];
     Vision.b64encode := fun _ => "aGk=";
     Vision.getenv_api_key := Some "sk-test";
     Vision.get_instructions := "Describe the image.";
     Vision.post := fun _ _ _ => Ok {| status_code := 200; text := "{}" |};
     Vision.json_loads := fun _ => Ok response_data;
     Vision.repr := fun _ => "";
     Vision.stdout_write := utf8_write "2" |}.

(** Two choices, the second one's content being the JSON string
    "\ud800". *)
Definition surrogate_choices : value :=
  VDict
    [("choices",
      VList
        [VDict [("message", VDict [("content", VStr "a")])];
         VDict [("message", VDict [("content", VStr lone_surrogate)])]])].

(** A segmentation world on a UTF-8 stdout, in which base64 text has
    incorrect padding. *)
Definition seg_utf8_world : Segmentation.world :=
  {| Segmentation.read_bytes := fun _ => Ok [Byte.x68; Byte.x69];
     Segmentation.getenv_api_token := Some "hf-test";
     Segmentation.post := fun _ _ _ => Ok Scenario.ok_empty;
     Segmentation.json_loads := fun _ => Ok (VList []);
     Segmentation.json_dumps := fun _ => "[]";
     Segmentation.image_open := fun _ => Ok Scenario.image_2x2;
     Segmentation.open_b64_image :=
       fun _ => Raise (Exn BinasciiError "Incorrect padding");
     Segmentation.repr := fun _ => "";
     Segmentation.stdout_write := utf8_write "25" |}.

(** A result whose mask is the string "abc", which is not base64: its
    padding is incorrect. *)
Definition bad_base64_results : list value :=
  [Scenario.entry "sky" (VStr "abc")].

(** A result without a mask whose label is the JSON string "\ud800". *)
Definition surrogate_label_results : list value :=
  [Scenario.entry lone_surrogate VNone].

End Runs.

(* ===================================================================== *)
(** ** Properties of the vision script *)
(* ===================================================================== *)

Module VisionProofs.
Import Py PyNotations Vision Spec.

Lemma rmap_contents (choices contents : list value) :
  Forall2 has_content choices contents ->
  rmap (fun choice =>
          rbind (py_getitem choice "message") (fun message =>
          py_getitem message "content")) choices
  = Ok contents.
Proof.
  induction 1 as [| choice content choices contents Hc _ IH]; [reflexivity |].
  destruct Hc as (fields & message & -> & Hm & Hcont).
  cbn [rmap py_getitem rbind]. rewrite Hm. cbn [rbind py_getitem].
  rewrite Hcont. cbn [rbind]. rewrite IH. reflexivity.
Qed.

Lemma has_content_str (s : string) (extra : list (string * value)) :
  has_content (VDict [("message", VDict (("content", VStr s) :: extra))]) (VStr s).
Proof. exists [("message", VDict (("content", VStr s) :: extra))], (("content", VStr s) :: extra). auto. Qed.

(** C3. [read_content] on a response object without a "choices" key returns
    the empty list; on a response whose "choices" is a list of choices that
    each have message.content, it returns those content strings in the
    order of the choices; on the two-choice example it returns ["a", "b"]. *)
Theorem read_content_spec :
  (forall items,
      dict_get "choices" items = None ->
      read_content (VDict items) = Ok []) /\
  (forall items choices contents,
      dict_get "choices" items = Some (VList choices) ->
      Forall2 has_content choices (map VStr contents) ->
      read_content (VDict items) = Ok (map VStr contents)) /\
  read_content Scenario.two_choices = Ok [VStr "a"; VStr "b"].
Proof.
  split; [| split].
  - intros items H. unfold read_content, py_in, dict_has. rewrite H. reflexivity.
  - intros items choices contents H Hall.
    unfold read_content, py_in, dict_has, py_getitem. rewrite H.
    cbn [rbind negb py_iter]. now apply rmap_contents.
  - reflexivity.
Qed.

Lemma read_content_spec_witness :
  read_content Scenario.no_choices = Ok [] /\
  read_content Scenario.two_choices = Ok (map VStr ["a"; "b"]).
Proof.
  split.
  - apply (proj1 read_content_spec). reflexivity.
  - apply (proj1 (proj2 read_content_spec)) with
      (choices := [VDict [("message", VDict [("content", VStr "a")])];
                   VDict [("message", VDict [("content", VStr "b")])]]).
    + reflexivity.
    + repeat constructor; apply has_content_str.
Defined.

(** The request as the script sends it, once the image is read. *)
Lemma make_text_image_request_read (w : world) (prompt path : string) data :
  read_bytes w path = Ok data ->
  make_text_image_request w prompt path =
  rbind (post w "https://api.openai.com/v1/chat/completions" (headers w)
           (payload prompt (b64encode w data)))
        (fun r => json_loads w (text r)).
Proof.
  intros H. unfold make_text_image_request, encode_image. rewrite H.
  cbn [rbind]. destruct (post w _ _ _) as [r | e]; cbn [rbind]; [| reflexivity].
  unfold response_json. destruct (json_loads w (text r)); reflexivity.
Qed.

(** C7. [make_text_image_request] returns the parsed body of the response
    whatever its status code: when the image is read and the API answers
    [r], the result is [json.loads] of the body of [r]; and answers with the
    same body and different status codes give the same result. *)
Theorem make_text_image_request_ignores_status
    (w : world) (prompt path : string) (r1 r2 : response) :
  text r1 = text r2 ->
  make_text_image_request (answering w r1) prompt path =
  make_text_image_request (answering w r2) prompt path /\
  (forall data, read_bytes w path = Ok data ->
     make_text_image_request (answering w r1) prompt path = json_loads w (text r1)).
Proof.
  intros Ht. split.
  - unfold make_text_image_request, encode_image, response_json, answering; cbn.
    rewrite Ht. reflexivity.
  - intros data H.
    rewrite (make_text_image_request_read (answering w r1) prompt path data H).
    reflexivity.
Qed.

Lemma make_text_image_request_ignores_status_witness :
  let w := Scenario.vision_world {| status_code := 200; text := "{}" |}
             (fun _ => Ok (VDict [])) in
  make_text_image_request
    (answering w {| status_code := 200; text := "{}" |}) "hi" "my_img.jpg" =
  make_text_image_request
    (answering w {| status_code := 401; text := "{}" |}) "hi" "my_img.jpg".
Proof.
  intro w.
  apply (make_text_image_request_ignores_status w "hi" "my_img.jpg"
           {| status_code := 200; text := "{}" |}
           {| status_code := 401; text := "{}" |}).
  reflexivity.
Defined.

Lemma print_result_ok (w : world) (ic : Z * value) (out : list string) :
  is_ok (stdout_write w (Props.content_line w ic)) = true ->
  print_result w ic out = ((out ++ lines_of w ic)%list, Ok tt).
Proof.
  unfold print_result, bind, print_text, print, Props.content_line, lines_of.
  destruct (stdout_write w _); [| discriminate]. intros _.
  now rewrite <- app_assoc.
Qed.

Lemma print_result_raise (w : world) (ic : Z * value) (out : list string) (e : exn) :
  stdout_write w (Props.content_line w ic) = Raise e ->
  print_result w ic out = (out, Raise e).
Proof.
  unfold print_result, bind, print_text, Props.content_line. now intros ->.
Qed.

Lemma for_print_lines (w : world) (l : list (Z * value)) (out : list string) :
  forallb (fun ic => is_ok (stdout_write w (Props.content_line w ic))) l = true ->
  for_print l (print_result w) out =
  ((out ++ flat_map (lines_of w) l)%list, Ok tt).
Proof.
  revert out. induction l as [| ic l IH]; intros out Hl; cbn [for_print flat_map].
  - unfold ret. now rewrite app_nil_r.
  - cbn [forallb] in Hl. apply andb_prop in Hl as [Hic Hl].
    unfold bind at 1. rewrite (print_result_ok w ic out Hic), (IH _ Hl).
    now rewrite <- app_assoc.
Qed.

Lemma for_print_stops (w : world) (good : list (Z * value)) (bad : Z * value)
    (rest : list (Z * value)) (e : exn) (out : list string) :
  forallb (fun ic => is_ok (stdout_write w (Props.content_line w ic))) good = true ->
  stdout_write w (Props.content_line w bad) = Raise e ->
  for_print (good ++ bad :: rest) (print_result w) out =
  ((out ++ flat_map (lines_of w) good)%list, Raise e).
Proof.
  revert out. induction good as [| ic good IH]; intros out Hg Hbad;
    cbn [app for_print flat_map].
  - unfold bind. rewrite (print_result_raise w bad out e Hbad). now rewrite app_nil_r.
  - cbn [forallb] in Hg. apply andb_prop in Hg as [Hic Hg].
    unfold bind at 1. rewrite (print_result_ok w ic out Hic), (IH _ Hg Hbad).
    now rewrite <- app_assoc.
Qed.

Lemma enumerate_from_app {A} (i : Z) (l1 l2 : list A) :
  enumerate_from i (l1 ++ l2) =
  (enumerate_from i l1 ++ enumerate_from (i + Z.of_nat (List.length l1)) l2)%list.
Proof.
  revert i. induction l1 as [| x l1 IH]; intros i; cbn [app enumerate_from List.length].
  - now rewrite Z.add_0_r.
  - rewrite IH. do 3 f_equal. lia.
Qed.

(** C6 fails as stated: with the image file missing, the script prints
    nothing, not even "Done", and exits with code 1. *)
Lemma vision_main_missing_file :
  exit_code (main Scenario.vision_world_no_file) = 1 /\
  stdout (main Scenario.vision_world_no_file) = [].
Proof. split; reflexivity. Qed.

(** C6, amended. When the request returns a parsed body, [read_content]
    returns its contents and stdout takes the line of every result, the
    vision script prints each result, then "Done", and exits with code 0;
    so it does, printing "Done" alone, when the API answers, with whatever
    status code, a JSON object without "choices".  When the request or
    [read_content] raises an exception, it prints nothing and exits with
    code 1.  When stdout refuses the line of a result, as for a content
    holding a lone surrogate, the script ends there on the traceback with
    exit code 1, the results before it printed and "Done" not. *)
Theorem vision_main_exit (w : world) :
  (forall response_data contents,
      make_text_image_request w (get_instructions w) "my_img.jpg" = Ok response_data ->
      read_content response_data = Ok contents ->
      Props.results_writable w contents = true ->
      main w = {| stdout := (result_lines w contents ++ ["Done"])%list;
                  traceback := None;
                  exit_code := 0 |}) /\
  (forall data r items,
      read_bytes w "my_img.jpg" = Ok data ->
      post w "https://api.openai.com/v1/chat/completions" (headers w)
        (payload (get_instructions w) (b64encode w data)) = Ok r ->
      json_loads w (text r) = Ok (VDict items) ->
      dict_get "choices" items = None ->
      main w = {| stdout := ["Done"]; traceback := None; exit_code := 0 |}) /\
  (forall cls msg,
      make_text_image_request w (get_instructions w) "my_img.jpg" = Raise (Exn cls msg) \/
      (exists response_data,
          make_text_image_request w (get_instructions w) "my_img.jpg" = Ok response_data /\
          read_content response_data = Raise (Exn cls msg)) ->
      main w = {| stdout := [];
                  traceback := Some (Exn cls msg);
                  exit_code := 1 |}) /\
  (forall response_data good bad rest cls msg,
      make_text_image_request w (get_instructions w) "my_img.jpg" = Ok response_data ->
      read_content response_data = Ok (good ++ bad :: rest)%list ->
      Props.results_writable w good = true ->
      stdout_write w (Props.content_line w (Z.of_nat (List.length good), bad))
      = Raise (Exn cls msg) ->
      main w = {| stdout := result_lines w good;
                  traceback := Some (Exn cls msg);
                  exit_code := 1 |}).
Proof.
  assert (forall response_data contents,
      make_text_image_request w (get_instructions w) "my_img.jpg" = Ok response_data ->
      read_content response_data = Ok contents ->
      Props.results_writable w contents = true ->
      main w = {| stdout := (result_lines w contents ++ ["Done"])%list;
                  traceback := None;
                  exit_code := 0 |}) as Hok.
  { intros response_data contents Hreq Hread Hw.
    unfold main, run_main, main_body, bind, lift. rewrite Hreq, Hread.
    rewrite (for_print_lines w _ _ Hw). reflexivity. }
  split; [exact Hok |]. split; [| split].
  - intros data r items Hread Hpost Hjson Hno.
    apply (Hok (VDict items) []).
    + rewrite (make_text_image_request_read w _ _ data Hread), Hpost. exact Hjson.
    + unfold read_content, py_in, dict_has. now rewrite Hno.
    + reflexivity.
  - intros cls msg [Hreq | (response_data & Hreq & Hread)];
      unfold main, run_main, main_body, bind, lift; rewrite Hreq;
      [| rewrite Hread]; reflexivity.
  - intros response_data good bad rest cls msg Hreq Hread Hgood Hbad.
    unfold main, run_main, main_body, bind, lift. rewrite Hreq, Hread.
    unfold enumerate. rewrite enumerate_from_app. cbn [enumerate_from].
    rewrite (for_print_stops w _ _ _ (Exn cls msg) [] Hgood Hbad).
    reflexivity.
Qed.

Lemma vision_main_exit_witness :
  main (Scenario.vision_world {| status_code := 200; text := "{}" |}
          (fun _ => Ok Scenario.two_choices))
  = {| stdout := ["0" ++ String "010"%char "a";
                  "----------------------------------------";
                  "1" ++ String "010"%char "b";
                  "----------------------------------------";
                  "Done"];
       traceback := None;
       exit_code := 0 |} /\
  main Scenario.vision_world_no_file
  = {| stdout := [];
       traceback :=
         Some (Exn OSError "[Errno 2] No such file or directory: 'my_img.jpg'");
       exit_code := 1 |} /\
  main (Runs.vision_utf8_world Runs.surrogate_choices)
  = {| stdout := ["0" ++ String "010"%char "a";
                  "----------------------------------------"];
       traceback :=
         Some (Exn UnicodeEncodeError
                 "'utf-8' codec can't encode character '\ud800' in position 2: surrogates not allowed");
       exit_code := 1 |}.
Proof.
  split; [| split].
  - apply (proj1 (vision_main_exit _) Scenario.two_choices [VStr "a"; VStr "b"]);
      reflexivity.
  - apply (proj1 (proj2 (proj2 (vision_main_exit _)))). left. reflexivity.
  - apply (proj2 (proj2 (proj2 (vision_main_exit _)))
             Runs.surrogate_choices [VStr "a"] (VStr Runs.lone_surrogate) []);
      reflexivity.
Defined.

End VisionProofs.

(* ===================================================================== *)
(** ** Properties of the segmentation script *)
(* ===================================================================== *)

Module SegmentationProofs.
Import Py PyNotations Segmentation Spec.
Local Open Scope list_scope.

(** *** Strings *)




(** *** Dict keys *)

Lemma key_eqb_refl (v : value) : hashable v = true -> key_eqb v v = true.
Proof.
  destruct v as [| b | n | q | s | l | items | g]; cbn; try discriminate; intros _;
    try apply Qeq_bool_refl; try apply String.eqb_refl; reflexivity.
Qed.

Lemma key_eqb_num (a b : value) :
  key_eqb a b = true ->
  (a = VNone /\ b = VNone) \/
  (exists s, a = VStr s /\ b = VStr s) \/
  (exists x y, num_of a = Some x /\ num_of b = Some y /\ Qeq_bool x y = true).
Proof.
  destruct a, b; cbn; try discriminate; intros H; auto;
    try (right; right; eauto; fail).
  right; left. apply String.eqb_eq in H. subst. eauto.
Qed.

Lemma key_eqb_of_num (a b : value) x y :
  num_of a = Some x -> num_of b = Some y -> key_eqb a b = Qeq_bool x y.
Proof.
  destruct a, b; cbn; try discriminate; intros Ha Hb;
    injection Ha as <-; injection Hb as <-; reflexivity.
Qed.

Lemma key_eqb_trans (a b c : value) :
  key_eqb a b = true -> key_eqb b c = true -> key_eqb a c = true.
Proof.
  intros Hab Hbc.
  destruct (key_eqb_num _ _ Hab) as [[-> ->] | [(s & -> & ->) | (x & y & Hx & Hy & Hxy)]];
    try assumption.
  destruct (key_eqb_num _ _ Hbc) as [[Hb ->] | [(s & Hb & ->) | (y' & z & Hy' & Hz & Hyz)]];
    try (subst b; discriminate).
  rewrite Hy in Hy'. injection Hy' as <-.
  rewrite (key_eqb_of_num a c x z Hx Hz). eapply Qeq_bool_trans; eassumption.
Qed.

Lemma color_lookup_app (label : value) (m m' : color_map) :
  color_lookup label (m ++ m') =
  match color_lookup label m with
  | Some c => Some c
  | None => color_lookup label m'
  end.
Proof.
  induction m as [| [k c] m IH]; cbn; [reflexivity |].
  destruct (key_eqb k label); [reflexivity | exact IH].
Qed.

Lemma palette_index (n : nat) :
  nth (Z.to_nat (Z.of_nat n mod Z.of_nat (List.length palette))) palette black
  = palette_at n.
Proof.
  unfold palette_at. change (List.length palette) with 10%nat.
  rewrite <- Nat2Z.inj_mod, Nat2Z.id. reflexivity.
Qed.

Lemma assign_color_new (label : value) (m : color_map) :
  hashable label = true ->
  color_lookup label m = None ->
  assign_color label m =
  Ok ((m ++ [(label, palette_at (List.length m))])%list, palette_at (List.length m)).
Proof.
  intros Hh Hl. unfold assign_color. rewrite Hh, Hl. cbn [negb].
  rewrite color_lookup_app, Hl. cbn [color_lookup].
  rewrite (key_eqb_refl _ Hh), palette_index. reflexivity.
Qed.

Lemma assign_color_known (label : value) (m : color_map) (c : rgb) :
  hashable label = true ->
  color_lookup label m = Some c ->
  assign_color label m = Ok (m, c).
Proof.
  intros Hh Hl. unfold assign_color. rewrite Hh, Hl. cbn [negb]. rewrite Hl. reflexivity.
Qed.

(** What a successful [assign_color] did. *)
Lemma assign_color_inv (label : value) (m m' : color_map) (c : rgb) :
  assign_color label m = Ok (m', c) ->
  hashable label = true /\
  ((color_lookup label m = Some c /\ m' = m) \/
   (color_lookup label m = None /\
    m' = (m ++ [(label, palette_at (List.length m))])%list /\
    c = palette_at (List.length m))).
Proof.
  intros H. destruct (hashable label) eqn:Hh.
  - split; [reflexivity |]. destruct (color_lookup label m) as [c0 |] eqn:Hl.
    + rewrite (assign_color_known _ _ _ Hh Hl) in H. injection H as <- <-. now left.
    + rewrite (assign_color_new _ _ Hh Hl) in H. injection H as <- <-. now right.
  - unfold assign_color in H. rewrite Hh in H. discriminate.
Qed.

Lemma sightings_fresh (labels : list value) (m : color_map) :
  forallb hashable labels = true ->
  keys_distinct labels = true ->
  (forall l, In l labels -> color_lookup l m = None) ->
  let colors := map palette_at (seq (List.length m) (List.length labels)) in
  sightings labels m = Ok ((m ++ combine labels colors)%list, colors).
Proof.
  revert m. induction labels as [| x rest IH]; intros m Hh Hd Hnew; cbn.
  - now rewrite app_nil_r.
  - cbn in Hh, Hd. apply andb_prop in Hh as [Hx Hrest]. apply andb_prop in Hd as [Hxd Hd].
    rewrite (assign_color_new x m Hx (Hnew x (or_introl eq_refl))). cbn [rbind fst snd].
    rewrite IH; try assumption.
    + cbn [rbind fst snd]. rewrite length_app, <- app_assoc. cbn [List.length app].
      replace (List.length m + 1)%nat with (S (List.length m)) by lia. reflexivity.
    + intros l Hl. rewrite color_lookup_app, (Hnew l (or_intror Hl)). cbn.
      apply negb_true_iff in Hxd.
      destruct (key_eqb x l) eqn:E; [| reflexivity].
      exfalso. assert (existsb (key_eqb x) rest = true) as Hex
        by (apply existsb_exists; eauto). congruence.
Qed.

(** *** query_image and the top level *)



(** *** Blending *)

(** The cast of a blended channel drops the fraction, and nothing else. *)
Lemma astype_uint8_mix (o v : Z) :
  0 <= o <= 255 -> 0 <= v <= 255 ->
  astype_uint8 (mix o v) = Qfloor (mix o v) /\ Qfloor (mix o v) = (o + v) / 2.
Proof.
  intros Ho Hv. unfold astype_uint8, mix, alpha, Qfloor.
  cbn [Qnum Qden Qmult Qplus Qminus Qopp inject_Z Pos.mul].
  replace (1 * o * 2 + (1 * 2 + - (1) * 1) * v * 2) with ((o + v) * 2) by lia.
  rewrite Z.quot_div_nonneg by lia.
  change 4 with (2 * 2).
  rewrite Z.div_mul_cancel_r by lia. split; [| reflexivity].
  apply Z.mod_small. split.
  - apply Z.div_pos; lia.
  - apply Z.div_lt_upper_bound; lia.
Qed.

(** C1 fails as stated: in the end-to-end scenario the top row of the
    blended image is not the rounded blend of 100 with palette[0], whether
    a tie is rounded to even or up; its third channel is 87, and 87.5
    rounds to 88. *)
Lemma blend_is_not_rounded :
  ~ Scenario.blend_is_rounded py_round /\ ~ Scenario.blend_is_rounded round_half_up.
Proof.
  split; intros (out & fig & Hrun & Hshown);
    vm_compute in Hrun; injection Hrun as _ <-;
    vm_compute in Hshown; discriminate Hshown.
Qed.

(** C1, amended. For the 2x2 image of value 100 and the single result
    "grass" whose mask marks the top row, the blended image has in its top
    row the blend of 100 with each channel of palette[0] with the fraction
    dropped, that is (165, 62, 87), and in its bottom row the blend of 100
    with 0, that is 50. *)
Theorem blend_of_grass_scenario (w : world) (output_path : string) (out : list string) :
  exists fig,
    snd (plot_segmentation_map w Scenario.image_2x2 Scenario.grass_results
           output_path out) = Ok fig /\
    shown fig =
    [[floored_blend 100 (nth 0 palette black); floored_blend 100 (nth 0 palette black)];
     [floored_blend 100 black; floored_blend 100 black]] /\
    floored_blend 100 (nth 0 palette black) = (165, 62, 87) /\
    floored_blend 100 black = (50, 50, 50).
Proof.
  eexists. split; [reflexivity |]. repeat split.
Qed.

(** *** Color assignment *)

Lemma assign_color_lookup (label : value) (m m' : color_map) (c : rgb) :
  assign_color label m = Ok (m', c) -> color_lookup label m' = Some c.
Proof.
  intros H. destruct (assign_color_inv _ _ _ _ H) as [Hh [[Hl ->] | (Hl & -> & ->)]].
  - exact Hl.
  - rewrite color_lookup_app, Hl. cbn. now rewrite (key_eqb_refl _ Hh).
Qed.

(** C4. A label not yet in the color map receives
    palette[(number of labels in the map) mod 10] and is recorded; a label
    already in the map receives its recorded color and the map is left as
    it is; the color a sighting returned is what every later sighting of
    the label returns, however the map has grown since.  On ["road", "sky",
    "road", "car"] three colors are allocated, all distinct, and "road"
    gets palette[0] both times; with more than 10 distinct labels the 11th
    receives the color of the 1st. *)
Theorem assign_color_first_seen :
  (forall label m,
      hashable label = true ->
      color_lookup label m = None ->
      assign_color label m =
      Ok (m ++ [(label, nth (List.length m mod 10) palette black)],
          nth (List.length m mod 10) palette black)) /\
  (forall label m c,
      hashable label = true ->
      color_lookup label m = Some c ->
      assign_color label m = Ok (m, c)) /\
  (forall label m m' c later,
      assign_color label m = Ok (m', c) ->
      assign_color label (m' ++ later) = Ok (m' ++ later, c)) /\
  (exists m,
      sightings Scenario.road_sky_road_car [] =
      Ok (m, [nth 0 palette black; nth 1 palette black;
              nth 0 palette black; nth 2 palette black]) /\
      List.length m = 3%nat /\ NoDup (map snd m)) /\
  (forall labels,
      (10 < List.length labels)%nat ->
      forallb hashable labels = true ->
      keys_distinct labels = true ->
      exists m colors,
        sightings labels [] = Ok (m, colors) /\
        nth 10 colors black = nth 0 colors black).
Proof.
  split; [exact assign_color_new |]. split; [exact assign_color_known |].
  split; [| split].
  - intros label m m' c later H.
    apply assign_color_known.
    + apply (assign_color_inv _ _ _ _ H).
    + rewrite color_lookup_app, (assign_color_lookup _ _ _ _ H). reflexivity.
  - eexists. split; [reflexivity |]. split; [reflexivity |].
    repeat constructor; cbn; intuition discriminate.
  - intros labels Hlen Hh Hd.
    pose proof (sightings_fresh labels [] Hh Hd (fun _ _ => eq_refl)) as H.
    cbn [List.length app] in H. cbv zeta in H.
    do 2 eexists. split; [exact H |].
    rewrite (nth_indep _ black (palette_at 0)), (nth_indep _ black (palette_at 0) (n := 0))
      by (rewrite length_map, length_seq; lia).
    rewrite !map_nth, !seq_nth by lia. reflexivity.
Qed.

Lemma assign_color_first_seen_witness :
  assign_color (VStr "road") [] = Ok ([(VStr "road", (230, 25, 75))], (230, 25, 75)) /\
  assign_color (VStr "road") [(VStr "road", (230, 25, 75)); (VStr "sky", (60, 180, 75))]
  = Ok ([(VStr "road", (230, 25, 75)); (VStr "sky", (60, 180, 75))], (230, 25, 75)) /\
  (exists m colors,
      sightings Scenario.eleven_labels [] = Ok (m, colors) /\
      nth 10 colors black = nth 0 colors black).
Proof.
  split; [| split].
  - apply (proj1 assign_color_first_seen (VStr "road") []); reflexivity.
  - apply (proj1 (proj2 assign_color_first_seen)); reflexivity.
  - apply (proj2 (proj2 (proj2 (proj2 assign_color_first_seen))) Scenario.eleven_labels).
    + cbn. lia.
    + reflexivity.
    + reflexivity.
Defined.

(** *** Pixel grids *)

Lemma zip_with_length {A B C} (f : A -> B -> C) (la : list A) (lb : list B) :
  List.length la = List.length lb ->
  List.length (zip_with f la lb) = List.length la.
Proof.
  revert lb. induction la as [| a la IH]; intros [| b lb]; cbn; try discriminate; auto.
Qed.

Lemma nth_zip_with {A B C} (f : A -> B -> C) (la : list A) (lb : list B) da db i :
  List.length la = List.length lb ->
  nth i (zip_with f la lb) (f da db) = f (nth i la da) (nth i lb db).
Proof.
  revert lb i. induction la as [| a la IH]; intros [| b lb] [| i]; cbn;
    try discriminate; auto.
Qed.

Lemma rows_match_length {A B} (a : grid A) (b : grid B) :
  rows_match a b = true ->
  List.length a = List.length b /\
  forall i, List.length (nth i a []) = List.length (nth i b []).
Proof.
  revert b. induction a as [| ra a IH]; intros [| rb b]; cbn; try discriminate.
  - intros _. split; [reflexivity | intros [| i]; reflexivity].
  - intros H. apply andb_prop in H as [Hr H]. apply Nat.eqb_eq in Hr.
    destruct (IH b H) as [Hl Hn]. split; [now f_equal |].
    intros [| i]; [exact Hr | apply Hn].
Qed.

Lemma pixel_threshold (g : grid Z) (i j : nat) :
  pixel false (threshold g) i j = (128 <? pixel 0 g i j).
Proof.
  unfold pixel, threshold.
  change (@nil bool) with (map (fun p => 128 <? p) []).
  rewrite map_nth.
  change false with ((fun p => 128 <? p) 0) at 1.
  now rewrite map_nth.
Qed.

Lemma pixel_zeros (height width i j : nat) :
  pixel black (zeros height width) i j = black.
Proof.
  unfold pixel, zeros.
  destruct (Nat.lt_ge_cases i height) as [Hi | Hi].
  - rewrite (nth_repeat_lt (repeat black width)) by exact Hi. apply nth_repeat.
  - rewrite (nth_overflow (repeat (repeat black width) height))
      by (rewrite repeat_length; exact Hi).
    now destruct j.
Qed.

(** A pixel after [overlay[binary_mask] = color]. *)
Lemma set_masked_pixel (ov ov' : grid rgb) (bm : grid bool) (c : rgb) (i j : nat) :
  set_masked ov bm c = Ok ov' ->
  pixel black ov' i j = if pixel false bm i j then c else pixel black ov i j.
Proof.
  unfold set_masked. destruct (rows_match ov bm) eqn:Hm; [| discriminate].
  intros H. injection H as <-.
  destruct (rows_match_length _ _ Hm) as [Hl Hn].
  unfold pixel.
  set (g := fun (px : rgb) (m : bool) => if m then c else px).
  change (@nil rgb) with (zip_with g [] []) at 1.
  rewrite (nth_zip_with (zip_with g) ov bm [] [] i Hl).
  change black with (g black false) at 1.
  now rewrite (nth_zip_with g _ _ black false j (Hn i)).
Qed.

Lemma set_masked_shape (ov ov' : grid rgb) (bm : grid bool) (c : rgb) (h w : nat) :
  has_shape ov h w ->
  set_masked ov bm c = Ok ov' ->
  has_shape ov' h w.
Proof.
  unfold set_masked. destruct (rows_match ov bm) eqn:Hm; [| discriminate].
  intros [Hh Hw] H. injection H as <-. revert h bm Hm Hh Hw.
  induction ov as [| r ov IH]; intros h [| rb bm] Hm Hh Hw; cbn in *; try discriminate.
  - split; [exact Hh | constructor].
  - apply andb_prop in Hm as [Hr Hm]. apply Nat.eqb_eq in Hr.
    inversion Hw as [| ? ? Hr0 Hw0]; subst.
    destruct (IH (List.length ov) bm Hm eq_refl Hw0) as [Hl Hf].
    split; cbn; [now rewrite Hl |].
    constructor; [now apply zip_with_length | exact Hf].
Qed.

Lemma zeros_shape (height width : nat) : has_shape (zeros height width) height width.
Proof.
  unfold zeros. split; [apply repeat_length |].
  apply Forall_forall. intros row Hrow. apply repeat_spec in Hrow. subst.
  apply repeat_length.
Qed.

(** *** One turn of the loop *)

(** The turn for an entry that is a dict, spelled out. *)
Lemma loop_body_dict (w : world) (items : list (string * value)) (st : locals)
    (out : list string) :
  let r := VDict items in
  loop_body w r st out =
  match entry_mask_data r with
  | VStr s =>
      match open_b64_image w s with
      | Ok g =>
          match assign_color (entry_label r) (label_to_color st) with
          | Ok mc =>
              match set_masked (overlay st) (threshold g) (snd mc) with
              | Ok ov => (out, Ok {| overlay := ov; label_to_color := fst mc |})
              | Raise e => (out, Raise e)
              end
          | Raise e => (out, Raise e)
          end
      | Raise e => (out, Raise e)
      end
  | VImage g =>
      match assign_color (entry_label r) (label_to_color st) with
      | Ok mc =>
          match set_masked (overlay st) (threshold g) (snd mc) with
          | Ok ov => (out, Ok {| overlay := ov; label_to_color := fst mc |})
          | Raise e => (out, Raise e)
          end
      | Raise e => (out, Raise e)
      end
  | _ =>
      match stdout_write w (diagnostic w r) with
      | Ok _ => (out ++ [diagnostic w r], Ok st)
      | Raise e => (out, Raise e)
      end
  end.
Proof.
  cbv zeta. unfold loop_body, diagnostic, entry_mask_data, entry_label, bind, lift, py_get.
  destruct (dict_get "mask" items) as [[| b | n | q | s | l | d | g] |];
    cbn [decode_mask bind lift ret]; unfold bind, lift, ret, print_text;
    try (destruct (stdout_write w _); reflexivity).
  - destruct (open_b64_image w s) as [g | e]; [| reflexivity].
    destruct (assign_color _ _) as [mc | e]; [| reflexivity].
    destruct (set_masked _ _ _); reflexivity.
  - destruct (assign_color _ _) as [mc | e]; [| reflexivity].
    destruct (set_masked _ _ _); reflexivity.
Qed.

Lemma loop_body_not_dict (w : world) (r : value) (st : locals) (out : list string) :
  (forall items, r <> VDict items) ->
  exists e, loop_body w r st out = (out, Raise e).
Proof.
  intros H. destruct r; try (eexists; reflexivity). now destruct (H items).
Qed.

(** An entry whose mask is not recognized is skipped, once its diagnostic
    is printed. *)
Lemma loop_body_skip (w : world) (items : list (string * value)) (st : locals)
    (out : list string) :
  mask_recognized (VDict items) = false ->
  is_ok (stdout_write w (diagnostic w (VDict items))) = true ->
  loop_body w (VDict items) st out = (out ++ [diagnostic w (VDict items)], Ok st).
Proof.
  intros H Hw. rewrite loop_body_dict. unfold mask_recognized in H.
  destruct (stdout_write w (diagnostic w (VDict items))); [| discriminate].
  destruct (entry_mask_data (VDict items)); try reflexivity; discriminate.
Qed.

(** When stdout refuses the diagnostic, the turn raises. *)
Lemma loop_body_unprintable (w : world) (items : list (string * value)) (e : exn)
    (st : locals) (out : list string) :
  mask_recognized (VDict items) = false ->
  stdout_write w (diagnostic w (VDict items)) = Raise e ->
  loop_body w (VDict items) st out = (out, Raise e).
Proof.
  intros H Hw. rewrite loop_body_dict, Hw. unfold mask_recognized in H.
  destruct (entry_mask_data (VDict items)); try reflexivity; discriminate.
Qed.

(** A mask that is a string is taken for base64 whatever it holds: when it
    does not decode, the turn raises and nothing is skipped. *)
Lemma loop_body_undecodable (w : world) (items : list (string * value)) (s : string)
    (e : exn) (st : locals) (out : list string) :
  dict_get "mask" items = Some (VStr s) ->
  open_b64_image w s = Raise e ->
  loop_body w (VDict items) st out = (out, Raise e).
Proof.
  intros Hm He. rewrite loop_body_dict. unfold entry_mask_data.
  now rewrite Hm, He.
Qed.

(** What a turn that did not raise has done. *)
Lemma loop_body_inv (w : world) (r : value) (st st' : locals) (out out' : list string) :
  loop_body w r st out = (out', Ok st') ->
  (mask_recognized r = false /\ st' = st /\ out' = out ++ [diagnostic w r] /\
   is_ok (stdout_write w (diagnostic w r)) = true) \/
  (mask_recognized r = true /\ out' = out /\
   exists bm c,
     entry_mask w r = Some bm /\
     assign_color (entry_label r) (label_to_color st) = Ok (label_to_color st', c) /\
     set_masked (overlay st) bm c = Ok (overlay st')).
Proof.
  destruct r as [| b | n | q | s | l | items | g];
    try (intros H; discriminate H).
  rewrite loop_body_dict. unfold mask_recognized, entry_mask.
  destruct (entry_mask_data (VDict items)) as [| b | n | q | s | l | d | g];
    try (destruct (stdout_write w _); [| discriminate];
         intros H; injection H as <- <-; left; auto; fail).
  - destruct (open_b64_image w s) as [g | e]; [| discriminate].
    destruct (assign_color _ _) as [[m c] | e] eqn:Ha; [| discriminate].
    destruct (set_masked _ _ _) as [ov | e] eqn:Hs; [| discriminate].
    intros H. injection H as <- <-. right. cbn in *. eauto 8.
  - destruct (assign_color _ _) as [[m c] | e] eqn:Ha; [| discriminate].
    destruct (set_masked _ _ _) as [ov | e] eqn:Hs; [| discriminate].
    intros H. injection H as <- <-. right. cbn in *. eauto 8.
Qed.

(** What was printed before a turn stays printed, and does not bear on it. *)
Lemma loop_body_frame (w : world) (r : value) (st : locals) (out : list string) :
  loop_body w r st out =
  (out ++ fst (loop_body w r st []), snd (loop_body w r st [])).
Proof.
  destruct r as [| b | n | q | s | l | items | g];
    try (cbn; now rewrite app_nil_r).
  rewrite !loop_body_dict.
  destruct (entry_mask_data (VDict items)) as [| b | n | q | s | l | d | g];
    try (destruct (stdout_write w _); cbn; now rewrite ?app_nil_r).
  - destruct (open_b64_image w s); [| cbn; now rewrite app_nil_r].
    destruct (assign_color _ _); [| cbn; now rewrite app_nil_r].
    destruct (set_masked _ _ _); cbn; now rewrite app_nil_r.
  - destruct (assign_color _ _); [| cbn; now rewrite app_nil_r].
    destruct (set_masked _ _ _); cbn; now rewrite app_nil_r.
Qed.

(** *** The whole loop *)

Lemma for_results_cons (w : world) (r : value) (rest : list value) (st : locals)
    (out : list string) :
  for_results w (r :: rest) st out =
  match loop_body w r st out with
  | (out', Ok st') => for_results w rest st' out'
  | (out', Raise e) => (out', Raise e)
  end.
Proof. reflexivity. Qed.

Lemma for_results_app (w : world) (l1 l2 : list value) (st : locals)
    (out : list string) :
  for_results w (l1 ++ l2) st out =
  match for_results w l1 st out with
  | (out', Ok st') => for_results w l2 st' out'
  | (out', Raise e) => (out', Raise e)
  end.
Proof.
  revert st out. induction l1 as [| r l1 IH]; intros st out; [reflexivity |].
  cbn [app]. rewrite !for_results_cons.
  destruct (loop_body w r st out) as [out' [st' | e]]; [apply IH | reflexivity].
Qed.

Lemma for_results_frame (w : world) (l : list value) (st : locals) (out : list string) :
  for_results w l st out =
  (out ++ fst (for_results w l st []), snd (for_results w l st [])).
Proof.
  revert st out. induction l as [| r l IH]; intros st out.
  - cbn. now rewrite app_nil_r.
  - rewrite !for_results_cons. rewrite (loop_body_frame w r st out).
    destruct (loop_body w r st []) as [o [st' | e]]; cbn [fst snd]; [| reflexivity].
    rewrite (IH st' (out ++ o)), (IH st' o). cbn [fst snd]. now rewrite app_assoc.
Qed.

Lemma plot_segmentation_map_list (w : world) (orig_np : grid rgb) (results : list value)
    (output_path : string) (out : list string) :
  plot_segmentation_map w orig_np (VList results) output_path out =
  match for_results w results (init_locals orig_np) out with
  | (out', Ok st) =>
      (out' ++ [("Segmentation map saved as " ++ output_path)%string],
       Ok {| shown := blend orig_np (overlay st);
             title := "Semantic Segmentation Map";
             legend := map make_patch (label_to_color st);
             saved_as := output_path |})
  | (out', Raise e) => (out', Raise e)
  end.
Proof.
  unfold plot_segmentation_map, compose_overlay, bind, lift, py_iter, print, ret.
  destruct (for_results w results (init_locals orig_np) out) as [o [st | e]]; reflexivity.
Qed.

(** A run with a skipped entry, against the run without it. *)
Lemma for_results_skip (w : world) (items : list (string * value))
    (before after : list value) (st : locals) (out : list string) :
  mask_recognized (VDict items) = false ->
  is_ok (stdout_write w (diagnostic w (VDict items))) = true ->
  exists out2,
    for_results w (before ++ VDict items :: after) st out =
    (out2, snd (for_results w (before ++ after) st out)) /\
    (forall st', snd (for_results w (before ++ after) st out) = Ok st' ->
                 In (diagnostic w (VDict items)) out2).
Proof.
  intros Hm Hw. rewrite !for_results_app.
  destruct (for_results w before st out) as [o [st1 | e]].
  - rewrite for_results_cons, (loop_body_skip w items st1 o Hm Hw).
    rewrite (for_results_frame w after st1 (o ++ _)), (for_results_frame w after st1 o).
    eexists. split; [reflexivity |]. intros _ _.
    apply in_or_app. left. apply in_or_app. right. now left.
  - eexists. split; [reflexivity |]. intros st' H. discriminate H.
Qed.

(** *** Entries without a label *)

Lemma for_results_ext (w : world) (r r' : value) (before after : list value)
    (st : locals) (out : list string) :
  (forall st0 out0, loop_body w r st0 out0 = loop_body w r' st0 out0) ->
  for_results w (before ++ r :: after) st out =
  for_results w (before ++ r' :: after) st out.
Proof.
  intros H. rewrite !for_results_app.
  destruct (for_results w before st out) as [o [st1 | e]]; [| reflexivity].
  now rewrite !for_results_cons, H.
Qed.

(** *** The color map after the loop *)

Lemma color_lookup_key_in (label : value) (m : color_map) :
  key_in (map fst m) label = match color_lookup label m with Some _ => true | None => false end.
Proof.
  induction m as [| [k c] m IH]; cbn; [reflexivity |].
  destruct (key_eqb k label); [reflexivity | exact IH].
Qed.

Lemma key_in_trans (ks : list value) (x y : value) :
  key_in ks x = true -> key_eqb x y = true -> key_in ks y = true.
Proof.
  unfold key_in. intros Hx Hxy. apply existsb_exists in Hx as (k & Hk & Hkx).
  apply existsb_exists. exists k. split; [exact Hk |]. eapply key_eqb_trans; eassumption.
Qed.

Lemma filter_absorb (ks : list value) (x : value) (l : list value) :
  key_in ks x = true ->
  filter (fun y => negb (key_in ks y)) (filter (fun y => negb (key_eqb x y)) l)
  = filter (fun y => negb (key_in ks y)) l.
Proof.
  intros Hx. induction l as [| a l IH]; cbn; [reflexivity |].
  destruct (key_eqb x a) eqn:E; cbn.
  - rewrite (key_in_trans ks x a Hx E). exact IH.
  - now rewrite IH.
Qed.

Lemma filter_snoc_keys (ks : list value) (x : value) (l : list value) :
  filter (fun y => negb (key_in (ks ++ [x]) y)) l
  = filter (fun y => negb (key_in ks y)) (filter (fun y => negb (key_eqb x y)) l).
Proof.
  induction l as [| a l IH]; cbn; [reflexivity |].
  unfold key_in at 1. rewrite existsb_app. cbn [existsb]. rewrite orb_false_r.
  fold (key_in ks a). rewrite IH.
  destruct (key_eqb x a); cbn; [now rewrite orb_true_r |].
  now rewrite orb_false_r.
Qed.

Lemma filter_no_keys (l : list value) :
  filter (fun y => negb (key_in [] y)) l = l.
Proof.
  induction l as [| a l IH]; [reflexivity |].
  cbn [filter]. change (negb (key_in [] a)) with true. cbv iota. now rewrite IH.
Qed.

Lemma first_seen_incl (l : list value) (k : value) :
  In k (first_seen l) -> In k l.
Proof.
  induction l as [| a l IH]; cbn; [auto |].
  intros [-> | H]; [now left |]. apply filter_In in H as [H _]. right. now apply IH.
Qed.

Lemma decodes_recognized (w : world) (r : value) :
  decodes w r = true -> mask_recognized r = true.
Proof.
  unfold decodes, entry_mask, mask_recognized.
  destruct (entry_mask_data r); try discriminate; reflexivity.
Qed.

(** The keys of the map grow by the labels newly decoded, at first sight. *)
Lemma for_results_keys (w : world) (results : list value) (st st' : locals)
    (out out' : list string) :
  for_results w results st out = (out', Ok st') ->
  map fst (label_to_color st') =
  map fst (label_to_color st)
    ++ filter (fun y => negb (key_in (map fst (label_to_color st)) y))
         (first_seen (decoded_labels w results)).
Proof.
  revert st out. induction results as [| r rest IH]; intros st out.
  - cbn. intros H. injection H as _ <-. now rewrite app_nil_r.
  - rewrite for_results_cons.
    destruct (loop_body w r st out) as [o [st1 | e]] eqn:Hbody; [| discriminate].
    intros Hrest. specialize (IH _ _ Hrest). rewrite IH. clear IH Hrest.
    destruct (loop_body_inv _ _ _ _ _ _ Hbody)
      as [(Hm & -> & _) | (_ & _ & bm & c & Hbm & Hassign & _)].
    + unfold decoded_labels. cbn [filter].
      destruct (decodes w r) eqn:Hd; [| reflexivity].
      apply decodes_recognized in Hd. congruence.
    + unfold decoded_labels. cbn [filter]. unfold decodes at 2. rewrite Hbm.
      cbn [map first_seen filter].
      fold (decoded_labels w rest).
      pose proof (color_lookup_key_in (entry_label r) (label_to_color st)) as Hk.
      destruct (assign_color_inv _ _ _ _ Hassign) as [_ [[Hl ->] | (Hl & -> & _)]];
        rewrite Hl in Hk; rewrite Hk; cbn [negb].
      * now rewrite (filter_absorb _ _ _ Hk).
      * rewrite map_app. cbn [map fst]. rewrite filter_snoc_keys, <- app_assoc.
        reflexivity.
Qed.

(** Entry number k of the map holds palette[k mod 10]. *)
Lemma for_results_colors (w : world) (results : list value) (st st' : locals)
    (out out' : list string) :
  for_results w results st out = (out', Ok st') ->
  map snd (label_to_color st) = map palette_at (seq 0 (List.length (label_to_color st))) ->
  map snd (label_to_color st') = map palette_at (seq 0 (List.length (label_to_color st'))).
Proof.
  revert st out. induction results as [| r rest IH]; intros st out.
  - cbn. intros H. injection H as _ <-. auto.
  - rewrite for_results_cons.
    destruct (loop_body w r st out) as [o [st1 | e]] eqn:Hbody; [| discriminate].
    intros Hrest Hst. apply (IH _ _ Hrest). clear IH Hrest.
    destruct (loop_body_inv _ _ _ _ _ _ Hbody)
      as [(_ & -> & _) | (_ & _ & bm & c & _ & Hassign & _)]; [exact Hst |].
    destruct (assign_color_inv _ _ _ _ Hassign) as [_ [[_ ->] | (_ & -> & _)]];
      [exact Hst |].
    rewrite map_app, length_app, Hst. cbn [map snd List.length].
    rewrite Nat.add_1_r, seq_S, map_app. reflexivity.
Qed.

Lemma loop_body_lookup_stable (w : world) (r : value) (st st' : locals)
    (out out' : list string) (x : value) (c : rgb) :
  loop_body w r st out = (out', Ok st') ->
  color_lookup x (label_to_color st) = Some c ->
  color_lookup x (label_to_color st') = Some c.
Proof.
  intros Hbody Hx.
  destruct (loop_body_inv _ _ _ _ _ _ Hbody)
    as [(_ & -> & _) | (_ & _ & bm & c' & _ & Hassign & _)]; [exact Hx |].
  destruct (assign_color_inv _ _ _ _ Hassign) as [_ [[_ ->] | (_ & -> & _)]];
    [exact Hx |].
  now rewrite color_lookup_app, Hx.
Qed.

(** A color, once assigned, is never changed. *)
Lemma for_results_lookup_stable (w : world) (results : list value) (st st' : locals)
    (out out' : list string) (x : value) (c : rgb) :
  for_results w results st out = (out', Ok st') ->
  color_lookup x (label_to_color st) = Some c ->
  color_lookup x (label_to_color st') = Some c.
Proof.
  revert st out. induction results as [| r rest IH]; intros st out.
  - cbn. intros H. injection H as _ <-. auto.
  - rewrite for_results_cons.
    destruct (loop_body w r st out) as [o [st1 | e]] eqn:Hbody; [| discriminate].
    intros Hrest Hx. apply (IH _ _ Hrest).
    eapply loop_body_lookup_stable; eassumption.
Qed.

Lemma for_results_assigned (w : world) (results : list value) (st st' : locals)
    (out out' : list string) (r : value) :
  for_results w results st out = (out', Ok st') ->
  In r results ->
  decodes w r = true ->
  exists c, color_lookup (entry_label r) (label_to_color st') = Some c.
Proof.
  revert st out. induction results as [| r0 rest IH]; intros st out; [intros _ [] |].
  rewrite for_results_cons.
  destruct (loop_body w r0 st out) as [o [st1 | e]] eqn:Hbody; [| discriminate].
  intros Hrest [-> | Hin] Hd; [| now apply (IH _ _ Hrest)].
  destruct (loop_body_inv _ _ _ _ _ _ Hbody)
    as [(Hm & _) | (_ & _ & bm & c & _ & Hassign & _)].
  - apply decodes_recognized in Hd. congruence.
  - exists c. apply (for_results_lookup_stable _ _ _ _ _ _ _ _ Hrest).
    eapply assign_color_lookup; eassumption.
Qed.

Lemma patch_label_make_patch (m : color_map) :
  map patch_label (map make_patch m) = map fst m.
Proof.
  induction m as [| [k [[r g] b]] m IH]; cbn; [| rewrite IH]; reflexivity.
Qed.

(** C9. In a run of [plot_segmentation_map] that draws its figure, the
    keys of the color map are the labels of the entries whose mask was
    decoded, each at its first decoding, entry number k holding
    palette[k mod 10], and the legend has one patch per key in that order.
    So a label whose entries were all skipped has no color and no patch,
    and the label of an entry whose mask was decoded has a color whatever
    the pixels of the mask. *)
Theorem color_map_holds_decoded_labels (w : world) (orig_np : grid rgb)
    (results : list value) (output_path : string) (out out' : list string)
    (fig : figure) :
  plot_segmentation_map w orig_np (VList results) output_path out = (out', Ok fig) ->
  exists st o,
    compose_overlay w orig_np (VList results) out = (o, Ok st) /\
    map fst (label_to_color st) = first_seen (decoded_labels w results) /\
    map snd (label_to_color st)
    = map palette_at (seq 0 (List.length (first_seen (decoded_labels w results)))) /\
    legend fig = map make_patch (label_to_color st) /\
    map patch_label (legend fig) = first_seen (decoded_labels w results) /\
    (forall label,
        (forall r, In r results -> key_eqb (entry_label r) label = true ->
                   mask_recognized r = false) ->
        color_lookup label (label_to_color st) = None) /\
    (forall r, In r results -> decodes w r = true ->
               exists c, color_lookup (entry_label r) (label_to_color st) = Some c).
Proof.
  rewrite plot_segmentation_map_list.
  destruct (for_results w results (init_locals orig_np) out) as [o [st | e]] eqn:Hrun;
    [| discriminate].
  intros H. injection H as _ <-. exists st, o.
  assert (map fst (label_to_color st) = first_seen (decoded_labels w results)) as Hkeys.
  { rewrite (for_results_keys _ _ _ _ _ _ Hrun).
    unfold init_locals. destruct (shape orig_np). cbn [label_to_color map app].
    apply filter_no_keys. }
  split. { unfold compose_overlay, bind, lift, py_iter. now rewrite Hrun. }
  split; [exact Hkeys |]. split.
  { rewrite <- Hkeys, length_map. apply (for_results_colors _ _ _ _ _ _ Hrun).
    unfold init_locals. destruct (shape orig_np). reflexivity. }
  split; [reflexivity |]. split.
  { cbn [legend]. now rewrite patch_label_make_patch. }
  split.
  - intros label Hskipped.
    pose proof (color_lookup_key_in label (label_to_color st)) as Hin.
    destruct (color_lookup label (label_to_color st)); [| reflexivity].
    exfalso. unfold key_in in Hin. apply existsb_exists in Hin as (k & Hk & Hkl).
    rewrite Hkeys in Hk. apply first_seen_incl in Hk.
    unfold decoded_labels in Hk. apply in_map_iff in Hk as (r0 & <- & Hr).
    apply filter_In in Hr as [Hr Hd]. apply decodes_recognized in Hd.
    specialize (Hskipped r0 Hr Hkl). congruence.
  - intros r Hr Hd. eapply for_results_assigned; eassumption.
Qed.

Lemma color_map_holds_decoded_labels_witness :
  exists st o,
    compose_overlay Scenario.quiet_world Scenario.image_2x2
      (VList Scenario.mixed_results) [] = (o, Ok st) /\
    map fst (label_to_color st) = [VStr "road"; VStr "car"] /\
    map snd (label_to_color st) = [(230, 25, 75); (60, 180, 75)] /\
    color_lookup (VStr "sky") (label_to_color st) = None.
Proof.
  destruct (color_map_holds_decoded_labels Scenario.quiet_world Scenario.image_2x2
              Scenario.mixed_results "segmentation_map.png"%string [] _ _ eq_refl)
    as (st & o & Hrun & Hkeys & Hcolors & _ & _ & Hskipped & _).
  exists st, o. split; [exact Hrun |]. split; [exact Hkeys |]. split; [exact Hcolors |].
  apply Hskipped. intros r Hr Hk.
  destruct Hr as [<- | [<- | [<- | []]]]; [reflexivity | discriminate Hk | discriminate Hk].
Defined.

(** *** The overlay after the loop *)

Lemma find_snoc {A} (f : A -> bool) (l : list A) (x : A) :
  find f (l ++ [x]) =
  match find f l with
  | Some y => Some y
  | None => if f x then Some x else None
  end.
Proof.
  induction l as [| a l IH]; cbn; [reflexivity |].
  destruct (f a); [reflexivity | exact IH].
Qed.

Lemma for_results_shape (w : world) (results : list value) (st st' : locals)
    (out out' : list string) (h wd : nat) :
  for_results w results st out = (out', Ok st') ->
  has_shape (overlay st) h wd ->
  has_shape (overlay st') h wd.
Proof.
  revert st out. induction results as [| r rest IH]; intros st out.
  - cbn. intros H. injection H as _ <-. auto.
  - rewrite for_results_cons.
    destruct (loop_body w r st out) as [o [st1 | e]] eqn:Hbody; [| discriminate].
    intros Hrest Hst. apply (IH _ _ Hrest).
    destruct (loop_body_inv _ _ _ _ _ _ Hbody)
      as [(_ & -> & _) | (_ & _ & bm & c & _ & _ & Hset)]; [exact Hst |].
    eapply set_masked_shape; eassumption.
Qed.

(** Each pixel holds the color of the last result that covers it, or what
    it held before the loop. *)
Lemma for_results_overlay (w : world) (results : list value) (st st' : locals)
    (out out' : list string) (i j : nat) :
  for_results w results st out = (out', Ok st') ->
  pixel black (overlay st') i j =
  match last_covering w results i j with
  | Some r => color_of (label_to_color st') (entry_label r)
  | None => pixel black (overlay st) i j
  end.
Proof.
  revert st out. induction results as [| r rest IH]; intros st out.
  - cbn. intros H. injection H as _ <-. reflexivity.
  - rewrite for_results_cons.
    destruct (loop_body w r st out) as [o [st1 | e]] eqn:Hbody; [| discriminate].
    intros Hrest. rewrite (IH _ _ Hrest).
    unfold last_covering. cbn [rev]. rewrite find_snoc.
    destruct (find (covers w i j) (rev rest)) as [r' |]; [reflexivity |].
    destruct (loop_body_inv _ _ _ _ _ _ Hbody)
      as [(Hm & -> & _) | (_ & _ & bm & c & Hbm & Hassign & Hset)].
    + unfold covers, entry_mask. unfold mask_recognized in Hm.
      destruct (entry_mask_data r); try reflexivity; discriminate.
    + rewrite (set_masked_pixel _ _ _ _ i j Hset).
      unfold covers. rewrite Hbm.
      destruct (pixel false bm i j); [| reflexivity].
      unfold color_of.
      now rewrite (for_results_lookup_stable _ _ _ _ _ _ _ _ Hrest
                     (assign_color_lookup _ _ _ _ Hassign)).
Qed.

(** *** Runs that reach the end of the loop *)

Lemma rows_match_shape {A B} (a : grid A) (b : grid B) (h wd : nat) :
  has_shape a h wd -> grid_has_shape b h wd = true -> rows_match a b = true.
Proof.
  unfold grid_has_shape. intros [Hh Hw] Hb. apply andb_prop in Hb as [Hbh Hbw].
  apply Nat.eqb_eq in Hbh. rewrite <- Hh in Hbh. clear Hh. revert b Hbh Hbw.
  induction a as [| ra a IH]; intros [| rb b] Hbh Hbw; cbn in *; try discriminate;
    [reflexivity |].
  apply andb_prop in Hbw as [Hrb Hbw]. apply Nat.eqb_eq in Hrb.
  apply Forall_cons_iff in Hw as [Hra Hw].
  rewrite Hra, Hrb, Nat.eqb_refl. cbn. apply IH; auto.
Qed.

Lemma assign_color_total (label : value) (m : color_map) :
  hashable label = true -> exists m' c, assign_color label m = Ok (m', c).
Proof.
  intros Hh. destruct (color_lookup label m) as [c |] eqn:Hl.
  - rewrite (assign_color_known _ _ _ Hh Hl). eauto.
  - rewrite (assign_color_new _ _ Hh Hl). eauto.
Qed.

Lemma loop_body_total (w : world) (r : value) (st : locals) (out : list string)
    (h wd : nat) :
  has_shape (overlay st) h wd ->
  entry_ok w h wd r = true ->
  exists out' st', loop_body w r st out = (out', Ok st').
Proof.
  intros Hshape Hok. destruct r as [| b | n | q | s | l | items | g]; try discriminate.
  cbn [entry_ok] in Hok. destruct (mask_recognized (VDict items)) eqn:Hm.
  - cbn [negb andb orb] in Hok.
    destruct (entry_mask w (VDict items)) as [bm |] eqn:Hbm; [| discriminate].
    apply andb_prop in Hok as [Hg Hh].
    destruct (assign_color_total _ (label_to_color st) Hh) as (m' & c & Ha).
    pose proof (rows_match_shape _ _ _ _ Hshape Hg) as Hrows.
    rewrite loop_body_dict. unfold entry_mask in Hbm.
    destruct (entry_mask_data (VDict items)) as [| b | n | q | s | l | d | g];
      try discriminate.
    + destruct (open_b64_image w s) as [g | e]; [| discriminate].
      injection Hbm as <-. rewrite Ha. unfold set_masked. rewrite Hrows. eauto.
    + injection Hbm as <-. rewrite Ha. unfold set_masked. rewrite Hrows. eauto.
  - cbn [negb andb] in Hok.
    destruct (is_ok (stdout_write w (diagnostic w (VDict items)))) eqn:Hw.
    + rewrite (loop_body_skip w items st out Hm Hw). eauto.
    + cbn [orb] in Hok. unfold entry_mask, mask_recognized in *.
      destruct (entry_mask_data (VDict items)); discriminate.
Qed.

(** On entries of the right form the loop raises nothing. *)
Lemma for_results_total (w : world) (results : list value) (st : locals)
    (out : list string) (h wd : nat) :
  has_shape (overlay st) h wd ->
  forallb (entry_ok w h wd) results = true ->
  exists out' st', for_results w results st out = (out', Ok st').
Proof.
  revert st out. induction results as [| r rest IH]; intros st out Hshape Hok.
  - do 2 eexists. reflexivity.
  - cbn [forallb] in Hok. apply andb_prop in Hok as [Hr Hrest].
    destruct (loop_body_total w r st out h wd Hshape Hr) as (o & st1 & Hbody).
    rewrite for_results_cons, Hbody. apply IH; [| exact Hrest].
    apply (for_results_shape w [r] st st1 out o).
    + now rewrite for_results_cons, Hbody.
    + exact Hshape.
Qed.

(** The color map after the loop is the one successive sightings of the
    decoded labels leave behind. *)
Lemma for_results_sightings (w : world) (results : list value) (st st' : locals)
    (out out' : list string) :
  for_results w results st out = (out', Ok st') ->
  exists colors,
    sightings (decoded_labels w results) (label_to_color st)
    = Ok (label_to_color st', colors).
Proof.
  revert st out. induction results as [| r rest IH]; intros st out.
  - cbn. intros H. injection H as _ <-. eexists. reflexivity.
  - rewrite for_results_cons.
    destruct (loop_body w r st out) as [o [st1 | e]] eqn:Hbody; [| discriminate].
    intros Hrest. destruct (IH _ _ Hrest) as (colors & Hs).
    unfold decoded_labels. cbn [filter].
    destruct (loop_body_inv _ _ _ _ _ _ Hbody)
      as [(Hm & -> & _) | (_ & _ & bm & c & Hbm & Hassign & _)].
    + destruct (decodes w r) eqn:Hd; [| eauto].
      apply decodes_recognized in Hd. congruence.
    + unfold decodes at 1. rewrite Hbm. cbn [map sightings]. rewrite Hassign.
      cbn [rbind fst]. fold (decoded_labels w rest). rewrite Hs. cbn. eauto.
Qed.

End SegmentationProofs.

(* ===================================================================== *)
(** ** Further properties of the vision script *)
(* ===================================================================== *)

Module VisionExtras.
Import Py PyNotations Vision Spec Props VisionProofs.
Local Open Scope list_scope.

Lemma content_of_ok (choice content : value) :
  content_of choice = Ok content <-> has_content choice content.
Proof.
  split.
  - unfold content_of, py_getitem.
    destruct choice as [| b | n | q | s | l | fields | g]; try discriminate.
    destruct (dict_get "message" fields) as [message |] eqn:Hm; [| discriminate].
    cbn [rbind].
    destruct message as [| b | n | q | s | l | md | g]; try discriminate.
    destruct (dict_get "content" md) as [c |] eqn:Hc; [| discriminate].
    intros H. injection H as <-. exists fields, md. auto.
  - intros (fields & md & -> & Hm & Hc). unfold content_of, py_getitem.
    rewrite Hm. cbn [rbind]. now rewrite Hc.
Qed.

Lemma content_of_missing (choice : value) (key : string) :
  missing_field choice key ->
  content_of choice = Raise (Exn KeyError ("'" ++ key ++ "'")%string).
Proof.
  intros [fields Hm | fields message Hm Hc]; unfold content_of, py_getitem; rewrite Hm.
  - reflexivity.
  - cbn [rbind]. now rewrite Hc.
Qed.

Lemma rmap_ok {A B} (k : A -> result B) (P : A -> B -> Prop) :
  (forall a b, k a = Ok b <-> P a b) ->
  forall l r, rmap k l = Ok r <-> Forall2 P l r.
Proof.
  intros Hk. induction l as [| a l IH]; intros r; cbn [rmap].
  - split; intros H.
    + injection H as <-. constructor.
    + now inversion H.
  - split.
    + destruct (k a) as [b | e] eqn:Ha; [| discriminate]. cbn [rbind].
      destruct (rmap k l) as [bs | e] eqn:Hl; [| discriminate]. cbn [rbind].
      intros H. injection H as <-. constructor; [now apply Hk | now apply IH].
    + intros H. inversion H as [| ? b ? bs Hab Hrest]; subst.
      apply Hk in Hab. rewrite Hab. cbn [rbind].
      apply IH in Hrest. now rewrite Hrest.
Qed.

Lemma rmap_raise {A B} (k : A -> result B) (good : list A) (bad : A) (rest : list A)
    (bs : list B) (e : exn) :
  rmap k good = Ok bs -> k bad = Raise e -> rmap k (good ++ bad :: rest) = Raise e.
Proof.
  revert bs. induction good as [| a good IH]; intros bs; cbn [rmap app].
  - intros _ ->. reflexivity.
  - destruct (k a); [| discriminate]. cbn [rbind].
    destruct (rmap k good) as [bs' |] eqn:Hg; [| discriminate].
    intros _ Hbad. now rewrite (IH bs' eq_refl Hbad).
Qed.

Lemma read_content_dict (items : list (string * value)) :
  read_content (VDict items) =
  match dict_get "choices" items with
  | None => Ok []
  | Some choices => rbind (py_iter choices) (rmap content_of)
  end.
Proof.
  unfold read_content, py_in, dict_has, py_getitem.
  destruct (dict_get "choices" items); reflexivity.
Qed.

(** X1. [read_content] on a response object returns a list exactly when
    the object has no "choices" key, the list being empty, or "choices" can
    be iterated and every element has message.content, the list holding
    those contents one per element in order. *)
Theorem read_content_ok_iff (items : list (string * value)) (contents : list value) :
  read_content (VDict items) = Ok contents <->
  (dict_get "choices" items = None /\ contents = []) \/
  (exists choices elems,
      dict_get "choices" items = Some choices /\
      py_iter choices = Ok elems /\
      Forall2 has_content elems contents /\
      List.length contents = List.length elems).
Proof.
  rewrite read_content_dict. split.
  - destruct (dict_get "choices" items) as [choices |].
    + destruct (py_iter choices) as [elems | e] eqn:Hi; [| discriminate].
      cbn [rbind]. intros H. apply (rmap_ok _ _ content_of_ok) in H.
      right. exists choices, elems. repeat split; auto.
      symmetry. exact (Forall2_length H).
    + intros H. injection H as <-. now left.
  - intros [[-> ->] | (choices & elems & -> & -> & H & _)]; [reflexivity |].
    cbn [rbind]. now apply (rmap_ok _ _ content_of_ok).
Qed.

(** X2. When some choice lacks "message", or its message lacks "content",
    [read_content] raises [KeyError] naming the missing key, even though
    the choices before it all had their content: nothing is returned for
    them. *)
Theorem read_content_missing_field (items : list (string * value))
    (good : list value) (bad : value) (rest : list value) (contents : list value)
    (key : string) :
  dict_get "choices" items = Some (VList (good ++ bad :: rest)) ->
  Forall2 has_content good contents ->
  missing_field bad key ->
  read_content (VDict items) = Raise (Exn KeyError ("'" ++ key ++ "'")%string).
Proof.
  intros Hc Hgood Hbad. rewrite read_content_dict, Hc. cbn [py_iter rbind].
  apply (rmap_raise content_of good bad rest contents).
  - now apply (rmap_ok _ _ content_of_ok).
  - now apply content_of_missing.
Qed.

Lemma read_content_missing_field_witness :
  read_content
    (VDict [("choices",
             VList ([VDict [("message", VDict [("content", VStr "a")])]]
                      ++ VDict [("message", VDict [("role", VStr "assistant")])]
                      :: []))])
  = Raise (Exn KeyError "'content'").
Proof.
  apply (read_content_missing_field
           [("choices",
             VList ([VDict [("message", VDict [("content", VStr "a")])]]
                      ++ VDict [("message", VDict [("role", VStr "assistant")])]
                      :: []))]
           [VDict [("message", VDict [("content", VStr "a")])]]
           (VDict [("message", VDict [("role", VStr "assistant")])]) []
           [VStr "a"] "content" eq_refl).
  - repeat constructor. apply has_content_str.
  - now apply no_content with (message := [("role", VStr "assistant")]).
Defined.

(** X15. [make_text_image_request] fails for three reasons and no other:
    the image file cannot be read, in which case nothing is posted; the HTTP
    call itself raises; or the body of the answer is not JSON.  The
    exception is passed on unchanged, and the status code of the answer is
    never a reason. *)
Theorem make_text_image_request_raises_iff (w : world) (prompt image_path : string)
    (e : exn) :
  make_text_image_request w prompt image_path = Raise e <->
  read_bytes w image_path = Raise e \/
  (exists data,
      read_bytes w image_path = Ok data /\
      post w "https://api.openai.com/v1/chat/completions"%string (headers w)
        (payload prompt (b64encode w data)) = Raise e) \/
  (exists data r,
      read_bytes w image_path = Ok data /\
      post w "https://api.openai.com/v1/chat/completions"%string (headers w)
        (payload prompt (b64encode w data)) = Ok r /\
      json_loads w (text r) = Raise e).
Proof.
  destruct (read_bytes w image_path) as [data | e0] eqn:Hread.
  - rewrite (make_text_image_request_read w prompt image_path data Hread).
    destruct (post w _ (headers w) (payload prompt (b64encode w data)))
      as [r | e1] eqn:Hpost; cbn [rbind]; split.
    + intros Hj. right. right. exists data, r. repeat split; auto.
    + intros [H | [(d & Hd & H) | (d & r' & Hd & Hr & Hj)]]; try discriminate.
      * injection Hd as <-. rewrite Hpost in H. discriminate.
      * injection Hd as <-. rewrite Hpost in Hr. now injection Hr as <-.
    + intros H. injection H as ->. right. left. exists data. auto.
    + intros [H | [(d & Hd & H) | (d & r' & Hd & Hr & Hj)]]; try discriminate.
      * injection Hd as <-. rewrite Hpost in H. now injection H as ->.
      * injection Hd as <-. rewrite Hpost in Hr. discriminate.
  - unfold make_text_image_request, encode_image. rewrite Hread. cbn [rbind]. split.
    + intros H. injection H as ->. now left.
    + intros [H | [(d & Hd & _) | (d & r' & Hd & _)]]; try discriminate.
      now injection H as ->.
Qed.

(** X16. [read_content] never returns a content from a response that is
    not an object: on a JSON array or string it returns the empty list or
    raises, and on null, a boolean or a number it raises [TypeError]. *)
Theorem read_content_not_object (response_data : value) :
  (forall items, response_data <> VDict items) ->
  (forall contents, read_content response_data = Ok contents -> contents = []) /\
  (type_name response_data <> "list"%string ->
   type_name response_data <> "str"%string ->
   exists msg, read_content response_data = Raise (Exn TypeError msg)).
Proof.
  intros Hnot. destruct response_data as [| b | n | q | s | l | items | g];
    try (split; [intros c H; discriminate H | intros _ _; eexists; reflexivity]).
  - split; [| intros _ H; now destruct H].
    intros contents. unfold read_content, py_in. cbn [rbind].
    destruct (str_contains "choices" s); cbn [negb py_getitem rbind]; [discriminate |].
    intros H. now injection H as <-.
  - split; [| intros H; now destruct H].
    intros contents. unfold read_content, py_in. cbn [rbind].
    destruct (existsb (is_str "choices") l); cbn [negb py_getitem rbind]; [discriminate |].
    intros H. now injection H as <-.
  - now destruct (Hnot items).
Qed.

Lemma read_content_not_object_witness :
  (forall contents, read_content (VList [VStr "rate limited"]) = Ok contents ->
                    contents = []) /\
  exists msg, read_content VNone = Raise (Exn TypeError msg).
Proof.
  split.
  - apply (proj1 (read_content_not_object (VList [VStr "rate limited"])
                    (fun items H => ltac:(discriminate H)))).
  - apply (proj2 (read_content_not_object VNone (fun items H => ltac:(discriminate H))));
      discriminate.
Defined.

End VisionExtras.

(* ===================================================================== *)
(** ** Further properties of the segmentation script *)
(* ===================================================================== *)

Module SegmentationExtras.
Import Py PyNotations Segmentation Spec Props SegmentationProofs.
Local Open Scope list_scope.

(** *** Which runs reach the figure *)

Lemma loop_body_ok_dict (w : world) (r : value) (st st' : locals)
    (out out' : list string) :
  loop_body w r st out = (out', Ok st') -> exists items, r = VDict items.
Proof.
  destruct r as [| b | n | q | s | l | items | g]; try discriminate. eauto.
Qed.

Lemma rows_match_grid_shape {A B} (a : grid A) (b : grid B) (h wd : nat) :
  has_shape a h wd -> rows_match a b = true -> grid_has_shape b h wd = true.
Proof.
  unfold grid_has_shape. intros [Hh Hw] Hm. subst h. revert b Hm.
  induction a as [| ra a IH]; intros [| rb b] Hm; cbn in *; try discriminate;
    [reflexivity |].
  apply andb_prop in Hm as [Hr Hm]. apply Nat.eqb_eq in Hr.
  apply Forall_cons_iff in Hw as [Hra Hw].
  specialize (IH Hw b Hm). apply andb_prop in IH as [Hl Hrows].
  apply Nat.eqb_eq in Hl. rewrite Hl, Nat.eqb_refl, <- Hr, Hra, Nat.eqb_refl.
  exact Hrows.
Qed.

Lemma loop_body_entry_ok (w : world) (r : value) (st st' : locals)
    (out out' : list string) (h wd : nat) :
  has_shape (overlay st) h wd ->
  loop_body w r st out = (out', Ok st') ->
  entry_ok w h wd r = true.
Proof.
  intros Hshape Hbody.
  destruct (loop_body_ok_dict _ _ _ _ _ _ Hbody) as (items & ->).
  cbn [entry_ok].
  destruct (loop_body_inv _ _ _ _ _ _ Hbody)
    as [(Hm & _ & _ & Hw) | (_ & _ & bm & c & Hbm & Hassign & Hset)].
  - now rewrite Hm, Hw.
  - rewrite Hbm. apply orb_true_iff. right. apply andb_true_iff. split.
    + apply (rows_match_grid_shape (overlay st)); [exact Hshape |].
      unfold set_masked in Hset.
      destruct (rows_match (overlay st) bm); [reflexivity | discriminate].
    + apply (assign_color_inv _ _ _ _ Hassign).
Qed.

Lemma for_results_entries_ok (w : world) (results : list value) (st st' : locals)
    (out out' : list string) (h wd : nat) :
  has_shape (overlay st) h wd ->
  for_results w results st out = (out', Ok st') ->
  forallb (entry_ok w h wd) results = true.
Proof.
  revert st out. induction results as [| r rest IH]; intros st out Hshape;
    [reflexivity |].
  rewrite for_results_cons.
  destruct (loop_body w r st out) as [o [st1 | e]] eqn:Hbody; [| discriminate].
  intros Hrest. cbn [forallb].
  rewrite (loop_body_entry_ok _ _ _ _ _ _ _ _ Hshape Hbody). cbn [andb].
  apply (IH st1 o); [| exact Hrest].
  apply (for_results_shape w [r] st st1 out o); [| exact Hshape].
  now rewrite for_results_cons, Hbody.
Qed.

Lemma init_locals_shape (orig_np : grid rgb) :
  has_shape (overlay (init_locals orig_np)) (fst (shape orig_np)) (snd (shape orig_np)).
Proof. unfold init_locals. destruct (shape orig_np). apply zeros_shape. Qed.

(** X3. Once the original image is decoded, the loop of
    [plot_segmentation_map] (lines 56-85) runs to its end on a list of
    results exactly when every result is a dict whose mask either is of no
    recognized type, with a diagnostic stdout takes, or decodes to the
    height and width of the original image with a hashable label beside it;
    any other result makes the loop raise. *)
Theorem compose_overlay_ok_iff (w : world) (orig_np : grid rgb)
    (results : list value) (out : list string) :
  (exists out' st, compose_overlay w orig_np (VList results) out = (out', Ok st))
  <->
  forallb (entry_ok w (fst (shape orig_np)) (snd (shape orig_np))) results = true.
Proof.
  assert (compose_overlay w orig_np (VList results) out
          = for_results w results (init_locals orig_np) out) as ->.
  { unfold compose_overlay, bind, lift, py_iter.
    now destruct (for_results w results (init_locals orig_np) out) as [o [st | e]]. }
  split.
  - intros (out' & st & Hrun).
    exact (for_results_entries_ok _ _ _ _ _ _ _ _ (init_locals_shape orig_np) Hrun).
  - intros Hok.
    exact (for_results_total w results (init_locals orig_np) out _ _
             (init_locals_shape orig_np) Hok).
Qed.

(** *** What the loop prints *)

Lemma for_results_prints (w : world) (results : list value) (st st' : locals)
    (out out' : list string) :
  for_results w results st out = (out', Ok st') ->
  out' = out ++ map (diagnostic w) (skipped results).
Proof.
  revert st out. induction results as [| r rest IH]; intros st out.
  - cbn. intros H. injection H as <- _. now rewrite app_nil_r.
  - rewrite for_results_cons.
    destruct (loop_body w r st out) as [o [st1 | e]] eqn:Hbody; [| discriminate].
    intros Hrest. rewrite (IH _ _ Hrest). unfold skipped. cbn [filter].
    destruct (loop_body_inv _ _ _ _ _ _ Hbody) as [(Hm & _ & -> & _) | (Hm & -> & _)];
      rewrite Hm; cbn [negb map]; [now rewrite <- app_assoc | reflexivity].
Qed.

(** X4. A call of [plot_segmentation_map] that draws its figure has
    printed one diagnostic per result whose mask is of no recognized type,
    in the order of the results, then the line naming the saved file, and
    nothing else. *)
Theorem plot_segmentation_map_prints (w : world) (orig_np : grid rgb)
    (results : list value) (output_path : string) (out out' : list string)
    (fig : figure) :
  plot_segmentation_map w orig_np (VList results) output_path out = (out', Ok fig) ->
  out' = out ++ map (diagnostic w) (skipped results)
             ++ [("Segmentation map saved as " ++ output_path)%string].
Proof.
  rewrite plot_segmentation_map_list.
  destruct (for_results w results (init_locals orig_np) out) as [o [st | e]] eqn:Hrun;
    [| discriminate].
  intros H. injection H as <- _.
  rewrite (for_results_prints _ _ _ _ _ _ Hrun). now rewrite <- app_assoc.
Qed.

Lemma plot_segmentation_map_prints_witness :
  match plot_segmentation_map Scenario.quiet_world Scenario.image_2x2
          (VList Scenario.mixed_results) "map.png" ["start"%string] with
  | (out', Ok _) =>
      out' = ["start"; "Unexpected mask type for sky: <class 'NoneType'>";
              "Segmentation map saved as map.png"]%string
  | (_, Raise _) => False
  end.
Proof.
  destruct (plot_segmentation_map Scenario.quiet_world Scenario.image_2x2
              (VList Scenario.mixed_results) "map.png" ["start"%string])
    as [out' [fig | e]] eqn:Hrun.
  - exact (plot_segmentation_map_prints _ _ _ _ _ _ _ Hrun).
  - vm_compute in Hrun. discriminate Hrun.
Defined.

(** *** The color map *)

Lemma compose_overlay_list (w : world) (orig_np : grid rgb) (results : list value)
    (out : list string) :
  compose_overlay w orig_np (VList results) out =
  for_results w results (init_locals orig_np) out.
Proof.
  unfold compose_overlay, bind, lift, py_iter.
  destruct (for_results w results (init_locals orig_np) out) as [o [st | e]]; reflexivity.
Qed.

Lemma init_locals_map (orig_np : grid rgb) : label_to_color (init_locals orig_np) = [].
Proof. unfold init_locals. now destruct (shape orig_np). Qed.

Lemma existsb_filter {A} (f g : A -> bool) (l : list A) :
  existsb g (filter f l) = true -> existsb g l = true.
Proof.
  intros H. apply existsb_exists in H as (x & Hx & Hg).
  apply filter_In in Hx as [Hx _]. apply existsb_exists. eauto.
Qed.

Lemma keys_distinct_filter (f : value -> bool) (l : list value) :
  keys_distinct l = true -> keys_distinct (filter f l) = true.
Proof.
  induction l as [| x l IH]; cbn; [reflexivity |].
  intros H. apply andb_prop in H as [Hx Hl].
  destruct (f x); cbn; [| now apply IH].
  rewrite (IH Hl), andb_true_r. apply negb_true_iff in Hx. apply negb_true_iff.
  destruct (existsb (key_eqb x) (filter f l)) eqn:E; [| reflexivity].
  apply existsb_filter in E. congruence.
Qed.

Lemma keys_distinct_first_seen (l : list value) : keys_distinct (first_seen l) = true.
Proof.
  induction l as [| x l IH]; cbn; [reflexivity |].
  rewrite (keys_distinct_filter _ _ IH), andb_true_r. apply negb_true_iff.
  destruct (existsb _ _) eqn:E; [| reflexivity].
  apply existsb_exists in E as (y & Hy & Hxy).
  apply filter_In in Hy as [_ Hy]. rewrite Hxy in Hy. discriminate.
Qed.

Lemma palette_at_in (n : nat) : In (palette_at n) palette.
Proof.
  unfold palette_at. apply nth_In. change (List.length palette) with 10%nat.
  apply Nat.mod_upper_bound. discriminate.
Qed.

Lemma palette_NoDup : NoDup palette.
Proof. unfold palette. repeat constructor; cbn; intuition discriminate. Qed.

Lemma palette_prefix (n : nat) :
  (n <= 10)%nat -> map palette_at (seq 0 n) = firstn n palette.
Proof.
  intros H. do 11 (destruct n as [| n]; [reflexivity |]). lia.
Qed.

(** In a run that reached the end of the loop, the map is the first-seen
    decoded labels paired with the palette in cycle order. *)
Lemma compose_overlay_map (w : world) (orig_np : grid rgb) (results : list value)
    (out out' : list string) (st : locals) :
  compose_overlay w orig_np (VList results) out = (out', Ok st) ->
  map fst (label_to_color st) = first_seen (decoded_labels w results) /\
  map snd (label_to_color st) = map palette_at (seq 0 (List.length (label_to_color st))).
Proof.
  rewrite compose_overlay_list. intros Hrun. split.
  - rewrite (for_results_keys _ _ _ _ _ _ Hrun), init_locals_map. apply filter_no_keys.
  - apply (for_results_colors _ _ _ _ _ _ Hrun). now rewrite init_locals_map.
Qed.

(** X5. After a loop that ran to its end no two keys of the color map are
    equal, every color is a palette entry, and the colors of the map are
    pairwise different as long as it holds at most 10 labels; from the
    11th label on, entry k+10 repeats the color of entry k. *)
Theorem color_map_colors (w : world) (orig_np : grid rgb) (results : list value)
    (out out' : list string) (st : locals) :
  compose_overlay w orig_np (VList results) out = (out', Ok st) ->
  let m := label_to_color st in
  keys_distinct (map fst m) = true /\
  Forall (fun c => In c palette) (map snd m) /\
  ((List.length m <= 10)%nat -> NoDup (map snd m)) /\
  (forall k, (k + 10 < List.length m)%nat ->
             nth (k + 10) (map snd m) black = nth k (map snd m) black).
Proof.
  intros Hrun m. destruct (compose_overlay_map _ _ _ _ _ _ Hrun) as [Hkeys Hcolors].
  fold m in Hkeys, Hcolors. split; [| split; [| split]].
  - rewrite Hkeys. apply keys_distinct_first_seen.
  - rewrite Hcolors. apply Forall_forall. intros c Hc.
    apply in_map_iff in Hc as (k & <- & _). apply palette_at_in.
  - intros Hlen. rewrite Hcolors, (palette_prefix _ Hlen).
    apply (NoDup_app_remove_r _ (skipn (List.length m) palette)).
    rewrite firstn_skipn. apply palette_NoDup.
  - intros k Hk. rewrite Hcolors.
    rewrite (nth_indep _ black (palette_at 0)), (nth_indep _ black (palette_at 0) (n := k))
      by (rewrite length_map, length_seq; lia).
    rewrite !map_nth, !seq_nth by lia. cbn [Nat.add]. unfold palette_at.
    replace (k + 10)%nat with (k + 1 * 10)%nat by lia.
    now rewrite Nat.Div0.mod_add.
Qed.

Lemma color_map_colors_witness :
  exists st,
    snd (compose_overlay Scenario.quiet_world Scenario.image_2x2
           (VList Scenario.mixed_results) []) = Ok st /\
    keys_distinct (map fst (label_to_color st)) = true /\
    NoDup (map snd (label_to_color st)).
Proof.
  eexists. split; [reflexivity |].
  destruct (color_map_colors Scenario.quiet_world Scenario.image_2x2
              Scenario.mixed_results [] _ _ eq_refl) as (Hk & _ & Hnd & _).
  split; [exact Hk |]. apply Hnd. cbn. lia.
Defined.

Lemma for_results_grows (w : world) (results : list value) (st st' : locals)
    (out out' : list string) :
  for_results w results st out = (out', Ok st') ->
  exists later, label_to_color st' = label_to_color st ++ later.
Proof.
  revert st out. induction results as [| r rest IH]; intros st out.
  - cbn. intros H. injection H as _ <-. exists []. now rewrite app_nil_r.
  - rewrite for_results_cons.
    destruct (loop_body w r st out) as [o [st1 | e]] eqn:Hbody; [| discriminate].
    intros Hrest. destruct (IH _ _ Hrest) as (later & ->).
    destruct (loop_body_inv _ _ _ _ _ _ Hbody)
      as [(_ & -> & _) | (_ & _ & bm & c & _ & Hassign & _)]; [eauto |].
    destruct (assign_color_inv _ _ _ _ Hassign) as [_ [[_ ->] | (_ & -> & _)]];
      [eauto |].
    rewrite <- app_assoc. eauto.
Qed.

(** X6. The loop never removes or recolors a label: the color map after
    more results is the map after fewer of them followed by new entries, and
    a label that had a color keeps that color. *)
Theorem color_map_only_grows (w : world) (before after : list value)
    (st0 st1 st2 : locals) (out out1 out2 : list string) :
  for_results w before st0 out = (out1, Ok st1) ->
  for_results w (before ++ after) st0 out = (out2, Ok st2) ->
  (exists later, label_to_color st2 = label_to_color st1 ++ later) /\
  (forall label c,
      color_lookup label (label_to_color st1) = Some c ->
      color_lookup label (label_to_color st2) = Some c).
Proof.
  intros H1 H2. rewrite for_results_app, H1 in H2.
  destruct (for_results_grows _ _ _ _ _ _ H2) as (later & Hl). split; [eauto |].
  intros label c Hc. now rewrite Hl, color_lookup_app, Hc.
Qed.

Lemma color_map_only_grows_witness :
  color_lookup (VStr "grass")
    [(VStr "grass", (230, 25, 75)); (VStr "tree", (60, 180, 75))]
  = Some (230, 25, 75).
Proof.
  refine (proj2 (color_map_only_grows Scenario.quiet_world
                   [Scenario.entry "grass" (VImage Scenario.top_row_mask)]
                   [Scenario.entry "tree" (VImage Scenario.left_column_mask)]
                   (init_locals Scenario.image_2x2) _ _ [] _ _ eq_refl eq_refl)
            (VStr "grass") (230, 25, 75) eq_refl).
Defined.

(** *** The overlay and the blended image *)

Lemma color_lookup_in (label : value) (m : color_map) (c : rgb) :
  color_lookup label m = Some c -> In c (map snd m).
Proof.
  induction m as [| [k c0] m IH]; cbn; [discriminate |].
  destruct (key_eqb k label); [intros H; injection H as ->; now left | auto].
Qed.

Lemma nth_forallb {A} (P : A -> bool) (l : list A) (d : A) (i : nat) :
  forallb P l = true -> P d = true -> P (nth i l d) = true.
Proof.
  intros Hl Hd. destruct (nth_in_or_default i l d) as [Hin | ->]; [| exact Hd].
  now apply (proj1 (forallb_forall P l) Hl).
Qed.

Lemma palette_uint8 (c : rgb) : In c palette -> is_uint8 c = true.
Proof.
  assert (forallb is_uint8 palette = true) as H by reflexivity.
  apply (proj1 (forallb_forall _ _) H).
Qed.

Lemma is_uint8_bounds (c : rgb) :
  is_uint8 c = true <->
  let '(r, g, b) := c in 0 <= r <= 255 /\ 0 <= g <= 255 /\ 0 <= b <= 255.
Proof.
  destruct c as [[r g] b]. unfold is_uint8. rewrite !andb_true_iff, !Z.leb_le. tauto.
Qed.

Lemma blend_pixel_half_sum (o v : rgb) :
  is_uint8 o = true -> is_uint8 v = true ->
  blend_pixel o v = half_sum o v /\ is_uint8 (half_sum o v) = true.
Proof.
  intros Ho Hv. apply is_uint8_bounds in Ho, Hv.
  destruct o as [[o1 o2] o3], v as [[v1 v2] v3]. cbn in Ho, Hv.
  destruct Ho as (Ho1 & Ho2 & Ho3), Hv as (Hv1 & Hv2 & Hv3).
  assert (forall a b, 0 <= a <= 255 -> 0 <= b <= 255 ->
                      astype_uint8 (mix a b) = (a + b) / 2 /\ 0 <= (a + b) / 2 <= 255)
    as Hch.
  { intros a b Ha Hb. destruct (astype_uint8_mix a b Ha Hb) as [E1 E2].
    split; [congruence |]. split.
    - apply Z.div_pos; lia.
    - apply Z.lt_succ_r. apply Z.div_lt_upper_bound; lia. }
  destruct (Hch o1 v1 Ho1 Hv1) as [E1 B1], (Hch o2 v2 Ho2 Hv2) as [E2 B2],
    (Hch o3 v3 Ho3 Hv3) as [E3 B3].
  split.
  - unfold blend_pixel, half_sum. now rewrite E1, E2, E3.
  - apply is_uint8_bounds. cbn. auto.
Qed.

Lemma has_shape_grid {A} (g : grid A) (h wd : nat) :
  has_shape g h wd -> grid_has_shape g h wd = true.
Proof.
  intros [Hh Hw]. unfold grid_has_shape. rewrite Hh, Nat.eqb_refl. cbn.
  apply forallb_forall. intros row Hrow. apply Nat.eqb_eq.
  exact (proj1 (Forall_forall _ _) Hw row Hrow).
Qed.

Lemma pixel_blend (orig_np ov : grid rgb) (i j : nat) :
  rows_match orig_np ov = true ->
  pixel black (blend orig_np ov) i j
  = blend_pixel (pixel black orig_np i j) (pixel black ov i j).
Proof.
  intros Hm. destruct (rows_match_length _ _ Hm) as [Hl Hn].
  unfold pixel, blend.
  change (@nil rgb) with (zip_with blend_pixel [] []) at 1.
  rewrite (nth_zip_with (zip_with blend_pixel) orig_np ov [] [] i Hl).
  change black with (blend_pixel black black) at 1.
  now rewrite (nth_zip_with blend_pixel _ _ black black j (Hn i)).
Qed.

Lemma blend_shape (orig_np ov : grid rgb) (h wd : nat) :
  has_shape orig_np h wd -> has_shape ov h wd -> has_shape (blend orig_np ov) h wd.
Proof.
  unfold blend. intros [Hh Hw] [Hh' Hw']. subst h. revert ov Hh' Hw'.
  induction orig_np as [| r orig_np IH]; intros [| r' ov] Hh' Hw'; cbn in *;
    try discriminate.
  - split; [reflexivity | constructor].
  - apply Forall_cons_iff in Hw as [Hr Hw]. apply Forall_cons_iff in Hw' as [Hr' Hw'].
    destruct (IH Hw ov (eq_add_S _ _ Hh') Hw') as [Hl Hf].
    split; cbn; [now rewrite Hl |].
    constructor; [| exact Hf].
    rewrite zip_with_length; congruence.
Qed.

Lemma compose_overlay_palette (w : world) (orig_np : grid rgb) (results : list value)
    (out out' : list string) (st : locals) :
  compose_overlay w orig_np (VList results) out = (out', Ok st) ->
  Forall (fun c => In c palette) (map snd (label_to_color st)).
Proof.
  intros Hrun. destruct (compose_overlay_map _ _ _ _ _ _ Hrun) as [_ Hcolors].
  rewrite Hcolors. apply Forall_forall. intros c Hc.
  apply in_map_iff in Hc as (k & <- & _). apply palette_at_in.
Qed.

Lemma init_overlay_black (orig_np : grid rgb) (i j : nat) :
  pixel black (overlay (init_locals orig_np)) i j = black.
Proof. unfold init_locals. destruct (shape orig_np). apply pixel_zeros. Qed.

Lemma overlay_pixel_uint8 (w : world) (orig_np : grid rgb) (results : list value)
    (out out' : list string) (st : locals) (i j : nat) :
  compose_overlay w orig_np (VList results) out = (out', Ok st) ->
  is_uint8 (pixel black (overlay st) i j) = true.
Proof.
  intros Hrun.
  pose proof (compose_overlay_palette w orig_np results out out' st Hrun) as Hpal.
  rewrite compose_overlay_list in Hrun.
  rewrite (for_results_overlay _ _ _ _ _ _ i j Hrun).
  destruct (last_covering w results i j) as [r |].
  - unfold color_of.
    destruct (color_lookup (entry_label r) (label_to_color st)) as [c |] eqn:Hc;
      [| reflexivity].
    apply palette_uint8. apply color_lookup_in in Hc.
    exact (proj1 (Forall_forall _ _) Hpal c Hc).
  - now rewrite init_overlay_black.
Qed.

(** X7. After a loop that ran to its end every pixel of the overlay is
    black or one of the ten palette colors, so each of its channels is an
    8-bit value. *)
Theorem overlay_pixels_in_palette (w : world) (orig_np : grid rgb)
    (results : list value) (out out' : list string) (st : locals) (i j : nat) :
  compose_overlay w orig_np (VList results) out = (out', Ok st) ->
  (pixel black (overlay st) i j = black \/ In (pixel black (overlay st) i j) palette) /\
  is_uint8 (pixel black (overlay st) i j) = true.
Proof.
  intros Hrun.
  assert (pixel black (overlay st) i j = black \/ In (pixel black (overlay st) i j) palette)
    as H.
  { pose proof (compose_overlay_palette w orig_np results out out' st Hrun) as Hpal.
    rewrite compose_overlay_list in Hrun.
    rewrite (for_results_overlay _ _ _ _ _ _ i j Hrun).
    destruct (last_covering w results i j) as [r |].
    - unfold color_of.
      destruct (color_lookup (entry_label r) (label_to_color st)) as [c |] eqn:Hc;
        [| now left].
      right. apply color_lookup_in in Hc.
      exact (proj1 (Forall_forall _ _) Hpal c Hc).
    - left. apply init_overlay_black. }
  split; [exact H |]. destruct H as [-> | H]; [reflexivity | now apply palette_uint8].
Qed.

Lemma overlay_pixels_in_palette_witness :
  exists st,
    snd (compose_overlay Scenario.quiet_world Scenario.image_2x2
           (VList Scenario.overlapping_results) []) = Ok st /\
    is_uint8 (pixel black (overlay st) 0 1) = true.
Proof.
  eexists. split; [reflexivity |].
  exact (proj2 (overlay_pixels_in_palette Scenario.quiet_world Scenario.image_2x2
                  Scenario.overlapping_results [] _ _ 0%nat 1%nat eq_refl)).
Defined.

Lemma covers_decodes (w : world) (i j : nat) (r : value) :
  covers w i j r = true -> decodes w r = true.
Proof.
  unfold covers, decodes. destruct (entry_mask w r); [reflexivity | discriminate].
Qed.

(** A covered pixel holds the color its label has in the map; an
    uncovered one is as before the loop. *)
Lemma for_results_painted (w : world) (results : list value) (st st' : locals)
    (out out' : list string) (i j : nat) :
  for_results w results st out = (out', Ok st') ->
  match last_covering w results i j with
  | Some r =>
      exists c,
        color_lookup (entry_label r) (label_to_color st') = Some c /\
        pixel black (overlay st') i j = c
  | None => pixel black (overlay st') i j = pixel black (overlay st) i j
  end.
Proof.
  intros Hrun. pose proof (for_results_overlay _ _ _ _ _ _ i j Hrun) as Hpx.
  destruct (last_covering w results i j) as [r |] eqn:Hlast; [| exact Hpx].
  unfold last_covering in Hlast. apply find_some in Hlast as [Hin Hc].
  apply in_rev in Hin.
  destruct (for_results_assigned _ _ _ _ _ _ r Hrun Hin (covers_decodes _ _ _ _ Hc))
    as (c & Hlook).
  exists c. split; [exact Hlook |]. rewrite Hpx. unfold color_of. now rewrite Hlook.
Qed.

(** X8. When the original image is rectangular with 8-bit channels, the
    figure of a call that draws it has the height and width of the
    original, and each of its pixels is, channel by channel, the sum of the
    original pixel and the overlay pixel halved with the half dropped: the
    overlay pixel is the color that the label of the last result covering
    it has in the color map, or black when no result covers it, in which
    case the original is shown at half its value.  Every channel shown is
    an 8-bit value: the cast never wraps. *)
Theorem shown_pixels (w : world) (orig_np : grid rgb) (results : list value)
    (output_path : string) (out out' : list string) (fig : figure) :
  rectangular orig_np ->
  uint8_image orig_np = true ->
  plot_segmentation_map w orig_np (VList results) output_path out = (out', Ok fig) ->
  exists o st,
    compose_overlay w orig_np (VList results) out = (o, Ok st) /\
    has_shape (shown fig) (fst (shape orig_np)) (snd (shape orig_np)) /\
    forall i j,
    exists v,
      match last_covering w results i j with
      | Some r => color_lookup (entry_label r) (label_to_color st) = Some v
      | None => v = black
      end /\
      pixel black (shown fig) i j = half_sum (pixel black orig_np i j) v /\
      is_uint8 (pixel black (shown fig) i j) = true.
Proof.
  intros Hrect Huint. rewrite plot_segmentation_map_list.
  destruct (for_results w results (init_locals orig_np) out) as [o [st | e]] eqn:Hrun;
    [| discriminate].
  intros H. injection H as _ <-. cbn [shown].
  assert (compose_overlay w orig_np (VList results) out = (o, Ok st)) as Hcomp
      by now rewrite compose_overlay_list.
  pose proof (for_results_shape _ _ _ _ _ _ _ _ Hrun (init_locals_shape orig_np))
    as Hshape.
  exists o, st. split; [exact Hcomp |]. split; [now apply blend_shape |].
  intros i j. exists (pixel black (overlay st) i j).
  assert (rows_match orig_np (overlay st) = true) as Hm
      by exact (rows_match_shape _ _ _ _ Hrect (has_shape_grid _ _ _ Hshape)).
  rewrite (pixel_blend _ _ i j Hm).
  assert (is_uint8 (pixel black orig_np i j) = true) as Ho.
  { unfold pixel. apply nth_forallb; [| reflexivity].
    apply (nth_forallb (forallb is_uint8)); [exact Huint | reflexivity]. }
  pose proof (overlay_pixel_uint8 w orig_np results out o st i j Hcomp) as Hv.
  destruct (blend_pixel_half_sum _ _ Ho Hv) as [E Hb].
  rewrite E. split; [| split; [reflexivity | exact Hb]].
  pose proof (for_results_painted _ _ _ _ _ _ i j Hrun) as Hp.
  destruct (last_covering w results i j) as [r |].
  - destruct Hp as (c & Hlook & ->). exact Hlook.
  - rewrite Hp. apply init_overlay_black.
Qed.

Lemma shown_pixels_witness :
  exists fig,
    snd (plot_segmentation_map Scenario.quiet_world Scenario.image_2x2
           (VList Scenario.overlapping_results) "map.png" []) = Ok fig /\
    pixel black (shown fig) 0 0 = half_sum Scenario.gray100 (60, 180, 75) /\
    pixel black (shown fig) 1 1 = half_sum Scenario.gray100 black.
Proof.
  assert (rectangular Scenario.image_2x2) as Hrect by (split; repeat constructor).
  destruct (shown_pixels Scenario.quiet_world Scenario.image_2x2
              Scenario.overlapping_results "map.png"%string [] _ _
              Hrect eq_refl eq_refl) as (o & st & Hcomp & _ & Hpx).
  vm_compute in Hcomp. injection Hcomp as _ <-.
  eexists. split; [reflexivity |]. split.
  - destruct (Hpx 0%nat 0%nat) as (v & Hv & Hs & _). cbn in Hv.
    injection Hv as <-. exact Hs.
  - destruct (Hpx 1%nat 1%nat) as (v & Hv & Hs & _). cbn in Hv. subst v. exact Hs.
Defined.

(** *** Single entries *)

Lemma zip_with_keep (c : rgb) (row : list rgb) (m : list bool) :
  List.length row = List.length m ->
  forallb negb m = true ->
  zip_with (fun px (b : bool) => if b then c else px) row m = row.
Proof.
  revert m. induction row as [| px row IH]; intros [| b m]; cbn; try discriminate;
    [reflexivity |].
  intros Hl Hm. apply andb_prop in Hm as [Hb Hm]. apply negb_true_iff in Hb. subst b.
  now rewrite IH by auto.
Qed.

Lemma set_masked_all_false (ov ov' : grid rgb) (bm : grid bool) (c : rgb) :
  forallb (forallb negb) bm = true ->
  set_masked ov bm c = Ok ov' ->
  ov' = ov.
Proof.
  unfold set_masked. destruct (rows_match ov bm) eqn:Hm; [| discriminate].
  intros Hf H. injection H as <-. revert bm Hm Hf.
  induction ov as [| row ov IH]; intros [| m bm] Hm Hf; cbn in *; try discriminate;
    [reflexivity |].
  apply andb_prop in Hm as [Hr Hm]. apply Nat.eqb_eq in Hr.
  apply andb_prop in Hf as [Hrow Hf].
  now rewrite (zip_with_keep c row m Hr Hrow), (IH bm Hm Hf).
Qed.

Lemma threshold_no_foreground (g : grid Z) :
  no_foreground g = true -> forallb (forallb negb) (threshold g) = true.
Proof.
  unfold no_foreground, threshold. induction g as [| row g IH]; cbn; [reflexivity |].
  intros H. apply andb_prop in H as [Hrow Hg]. rewrite (IH Hg), andb_true_r.
  clear IH Hg. induction row as [| p row IH]; cbn in *; [reflexivity |].
  apply andb_prop in Hrow as [Hp Hrow]. rewrite (IH Hrow), andb_true_r.
  apply Z.leb_le in Hp. apply negb_true_iff. apply Z.ltb_ge. exact Hp.
Qed.

(** The turn for an entry whose mask decodes to [bm]. *)
Lemma loop_body_decoded (w : world) (items : list (string * value)) (bm : grid bool)
    (st : locals) (out : list string) :
  entry_mask w (VDict items) = Some bm ->
  loop_body w (VDict items) st out =
  match assign_color (entry_label (VDict items)) (label_to_color st) with
  | Ok mc =>
      match set_masked (overlay st) bm (snd mc) with
      | Ok ov => (out, Ok {| overlay := ov; label_to_color := fst mc |})
      | Raise e => (out, Raise e)
      end
  | Raise e => (out, Raise e)
  end.
Proof.
  intros Hbm. rewrite loop_body_dict. unfold entry_mask in Hbm.
  destruct (entry_mask_data (VDict items)) as [| b | n | q | s | l | d | g];
    try discriminate.
  - destruct (open_b64_image w s) as [g | e]; [| discriminate].
    now injection Hbm as <-.
  - now injection Hbm as <-.
Qed.

Lemma entry_mask_threshold (w : world) (r : value) :
  entry_mask w r = option_map threshold (entry_mask_image w r).
Proof.
  unfold entry_mask, entry_mask_image.
  destruct (entry_mask_data r); try reflexivity.
  now destruct (open_b64_image w s).
Qed.

(** X9. The threshold is strict, at 128.  In a turn of the loop that raises
    nothing for an entry whose mask, given as an image object or as base64
    text, decodes to an image, the pixels whose mask value is above 128
    take the color of the entry's label and every other pixel keeps what it
    held, 128 itself being background; nothing is printed; and a mask with
    no value above 128 leaves the overlay as it was, while its label is in
    the color map afterwards. *)
Theorem mask_above_threshold (w : world) (items : list (string * value))
    (g : grid Z) (st st' : locals) (out out' : list string) :
  entry_mask_image w (VDict items) = Some g ->
  loop_body w (VDict items) st out = (out', Ok st') ->
  out' = out /\
  exists c,
    color_lookup (entry_label (VDict items)) (label_to_color st') = Some c /\
    (forall i j,
        pixel black (overlay st') i j
        = if 128 <? pixel 0 g i j then c else pixel black (overlay st) i j) /\
    (no_foreground g = true -> overlay st' = overlay st).
Proof.
  intros Himg Hbody.
  assert (entry_mask w (VDict items) = Some (threshold g)) as Hbm
      by now rewrite entry_mask_threshold, Himg.
  rewrite (loop_body_decoded w items _ st out Hbm) in Hbody.
  destruct (assign_color _ _) as [[m c] |] eqn:Ha; [| discriminate].
  cbn [fst snd] in Hbody.
  destruct (set_masked _ _ _) as [ov |] eqn:Hs; [| discriminate].
  injection Hbody as <- <-. cbn [overlay label_to_color].
  split; [reflexivity |]. exists c.
  split; [exact (assign_color_lookup _ _ _ _ Ha) |]. split.
  - intros i j. rewrite (set_masked_pixel _ _ _ _ i j Hs). now rewrite pixel_threshold.
  - intros Hg. exact (set_masked_all_false _ _ _ _ (threshold_no_foreground g Hg) Hs).
Qed.

Lemma mask_above_threshold_witness :
  exists c,
    color_lookup (VStr "road") [(VStr "road", (230, 25, 75))] = Some c /\
    (forall i j,
        pixel black [[black; (230, 25, 75)]; [black; black]] i j
        = if 128 <? pixel 0 [[128; 129]; [127; 0]] i j then c
          else pixel black (zeros 2 2) i j).
Proof.
  destruct (mask_above_threshold Scenario.quiet_world
              [("label", VStr "road"); ("mask", VImage [[128; 129]; [127; 0]])]
              [[128; 129]; [127; 0]] (init_locals Scenario.image_2x2) _ [] _
              eq_refl eq_refl) as (_ & c & Hc & Hpx & _).
  exists c. split; [exact Hc | exact Hpx].
Defined.

Lemma zip_with_twice (c : rgb) (row : list rgb) (m : list bool) :
  let sel := fun px (b : bool) => if b then c else px in
  zip_with sel (zip_with sel row m) m = zip_with sel row m.
Proof.
  cbv zeta. revert m. induction row as [| px row IH]; intros [| b m]; cbn;
    try reflexivity.
  rewrite IH. now destruct b.
Qed.

Lemma set_masked_idem (ov ov' : grid rgb) (bm : grid bool) (c : rgb) :
  set_masked ov bm c = Ok ov' -> set_masked ov' bm c = Ok ov'.
Proof.
  unfold set_masked. destruct (rows_match ov bm) eqn:Hm; [| discriminate].
  intros H. injection H as <-.
  set (sel := fun px (b : bool) => if b then c else px).
  assert (rows_match (zip_with (zip_with sel) ov bm) bm = true /\
          zip_with (zip_with sel) (zip_with (zip_with sel) ov bm) bm
          = zip_with (zip_with sel) ov bm) as [-> ->]; [| reflexivity].
  revert bm Hm. induction ov as [| row ov IH]; intros [| m bm] Hm; cbn in *;
    try discriminate; [auto |].
  apply andb_prop in Hm as [Hr Hm]. apply Nat.eqb_eq in Hr.
  destruct (IH bm Hm) as [-> ->].
  rewrite (zip_with_length sel row m Hr), Hr, Nat.eqb_refl.
  split; [reflexivity |]. f_equal. apply zip_with_twice.
Qed.

Lemma loop_body_idem (w : world) (r : value) (st st1 : locals) (out o o' : list string) :
  loop_body w r st out = (o, Ok st1) ->
  snd (loop_body w r st1 o') = Ok st1.
Proof.
  intros Hbody. destruct (loop_body_ok_dict _ _ _ _ _ _ Hbody) as (items & ->).
  destruct (loop_body_inv _ _ _ _ _ _ Hbody)
    as [(Hm & -> & _ & Hw) | (_ & _ & bm & c & Hbm & Hassign & Hset)].
  - now rewrite (loop_body_skip w items st o' Hm Hw).
  - rewrite (loop_body_decoded w items bm st1 o' Hbm).
    rewrite (assign_color_known _ _ c (proj1 (assign_color_inv _ _ _ _ Hassign))
               (assign_color_lookup _ _ _ _ Hassign)).
    cbn [fst snd]. rewrite (set_masked_idem _ _ _ _ Hset).
    now destruct st1.
Qed.

(** X10. A result that comes twice in a row counts once: the loop ends
    with the same overlay and color map, or with the same exception, as
    when it comes once. *)
Theorem repeated_result (w : world) (r : value) (rest : list value) (st : locals)
    (out : list string) :
  snd (for_results w (r :: r :: rest) st out) = snd (for_results w (r :: rest) st out).
Proof.
  rewrite (for_results_cons w r (r :: rest)), (for_results_cons w r rest).
  destruct (loop_body w r st out) as [o [st1 | e]] eqn:Hbody; [| reflexivity].
  rewrite for_results_cons.
  pose proof (loop_body_idem w r st st1 out o o Hbody) as Hidem.
  destruct (loop_body w r st1 o) as [o2 r2]. cbn [snd] in Hidem. subst r2.
  now rewrite (for_results_frame w rest st1 o2), (for_results_frame w rest st1 o).
Qed.

(** *** The script as a whole *)

(** The top level, case by case. *)
Lemma main_cases (w : world) :
  main w =
  match image_open w "image-of-road.jpg" with
  | Raise e => run_main (raise e)
  | Ok original_image =>
      match query_image w "image-of-road.jpg" with
      | Raise (Exn cls msg) =>
          {| stdout := [msg]; traceback := None; exit_code := 1 |}
      | Raise (SystemExit code) =>
          {| stdout := []; traceback := None; exit_code := code |}
      | Ok segmentation_results =>
          match plot_segmentation_map w original_image segmentation_results
                  "segmentation_map.png" (response_lines w segmentation_results) with
          | (out, Ok _) =>
              {| stdout := out ++ ["Done"%string]; traceback := None; exit_code := 0 |}
          | (out, Raise e) => run_main (fun _ => (out, Raise e))
          end
      end
  end.
Proof.
  unfold main, run_main, main_body, bind, try_except, lift, raise, print, ret,
    response_lines.
  destruct (image_open w "image-of-road.jpg") as [img | e]; [| reflexivity].
  destruct (query_image w "image-of-road.jpg") as [sr | [cls msg | code]];
    try reflexivity.
  cbn [app].
  destruct (plot_segmentation_map w img sr "segmentation_map.png" _) as [o [fig | e]];
    reflexivity.
Qed.



(** X12. When the image opens, the API answers a list of results and
    [plot_segmentation_map] returns, the script exits with code 0 having
    printed "API Response:", the JSON of the answer, one diagnostic per
    result whose mask is of no recognized type, the line naming the saved
    file and "Done", in that order. *)
Theorem main_success (w : world) (original_image : grid rgb) (results : list value)
    (out : list string) (fig : figure) :
  image_open w "image-of-road.jpg" = Ok original_image ->
  query_image w "image-of-road.jpg" = Ok (VList results) ->
  plot_segmentation_map w original_image (VList results) "segmentation_map.png"
    (response_lines w (VList results)) = (out, Ok fig) ->
  main w =
  {| stdout := response_lines w (VList results)
                 ++ map (diagnostic w) (skipped results)
                 ++ ["Segmentation map saved as segmentation_map.png"; "Done"]%string;
     traceback := None;
     exit_code := 0 |}.
Proof.
  intros Himg Hq Hrun. rewrite main_cases, Himg, Hq, Hrun.
  rewrite plot_segmentation_map_list in Hrun.
  destruct (for_results w results (init_locals original_image) _) as [o' [st | e]] eqn:Hloop;
    [| discriminate].
  injection Hrun as <- _. rewrite (for_results_prints _ _ _ _ _ _ Hloop).
  now rewrite <- !app_assoc.
Qed.

Lemma main_success_witness :
  main (Scenario.seg_world Scenario.ok_empty (fun _ => Ok (VList Scenario.mixed_results)))
  = {| stdout := ["API Response:"; "[]";
                  "Unexpected mask type for sky: <class 'NoneType'>";
                  "Segmentation map saved as segmentation_map.png"; "Done"]%string;
       traceback := None;
       exit_code := 0 |}.
Proof.
  destruct (plot_segmentation_map
              (Scenario.seg_world Scenario.ok_empty
                 (fun _ => Ok (VList Scenario.mixed_results)))
              Scenario.image_2x2 (VList Scenario.mixed_results) "segmentation_map.png"
              ["API Response:"; "[]"]%string) as [out [fig | e]] eqn:Hrun.
  - exact (main_success
             (Scenario.seg_world Scenario.ok_empty
                (fun _ => Ok (VList Scenario.mixed_results)))
             Scenario.image_2x2 Scenario.mixed_results out fig eq_refl eq_refl Hrun).
  - vm_compute in Hrun. discriminate Hrun.
Defined.

(** A turn that raises has printed nothing. *)
Lemma loop_body_raise_silent (w : world) (r : value) (st : locals)
    (out out' : list string) (e : exn) :
  loop_body w r st out = (out', Raise e) -> out' = out.
Proof.
  destruct r as [| b | n | q | s | l | items | g];
    try (intros H; now injection H as <- _).
  rewrite loop_body_dict.
  destruct (entry_mask_data (VDict items)) as [| b | n | q | s | l | d | g];
    try (destruct (stdout_write w _); intros H; [discriminate H | now injection H as <- _]).
  - destruct (open_b64_image w s); [| intros H; now injection H as <- _].
    destruct (assign_color _ _); [| intros H; now injection H as <- _].
    destruct (set_masked _ _ _); intros H; [discriminate H | now injection H as <- _].
  - destruct (assign_color _ _); [| intros H; now injection H as <- _].
    destruct (set_masked _ _ _); intros H; [discriminate H | now injection H as <- _].
Qed.

(** A loop that raises has printed the diagnostics of the results skipped
    until then. *)
Lemma for_results_raise_prints (w : world) (results : list value) (st : locals)
    (out out' : list string) (e : exn) :
  for_results w results st out = (out', Raise e) ->
  exists k, out' = out ++ map (diagnostic w) (skipped (firstn k results)).
Proof.
  revert st out. induction results as [| r rest IH]; intros st out; [discriminate |].
  rewrite for_results_cons.
  destruct (loop_body w r st out) as [o [st1 | e1]] eqn:Hbody.
  - intros Hrest. destruct (IH _ _ Hrest) as (k & ->). exists (S k).
    cbn [firstn]. unfold skipped. cbn [filter].
    destruct (loop_body_inv _ _ _ _ _ _ Hbody) as [(Hm & _ & -> & _) | (Hm & -> & _)];
      rewrite Hm; cbn [negb map]; [now rewrite <- app_assoc | reflexivity].
  - intros H. injection H as <- _. exists 0%nat. cbn [firstn].
    rewrite (loop_body_raise_silent _ _ _ _ _ _ Hbody). unfold skipped. cbn.
    now rewrite app_nil_r.
Qed.

(** X13. An exception of [plot_segmentation_map] is not caught: when the
    answer was received and the call raises, the script ends on the
    traceback with exit code 1; its output is "API Response:", the JSON of
    the answer and the diagnostics of the results skipped until then, and
    neither the line naming a saved file nor "Done". *)
Theorem main_uncaught (w : world) (original_image : grid rgb) (results : list value)
    (out : list string) (cls : exn_class) (msg : string) :
  image_open w "image-of-road.jpg" = Ok original_image ->
  query_image w "image-of-road.jpg" = Ok (VList results) ->
  plot_segmentation_map w original_image (VList results) "segmentation_map.png"
    (response_lines w (VList results)) = (out, Raise (Exn cls msg)) ->
  main w = {| stdout := out; traceback := Some (Exn cls msg); exit_code := 1 |} /\
  exists k,
    out = response_lines w (VList results)
            ++ map (diagnostic w) (skipped (firstn k results)).
Proof.
  intros Himg Hq Hplot. split; [now rewrite main_cases, Himg, Hq, Hplot |].
  rewrite plot_segmentation_map_list in Hplot.
  destruct (for_results w results (init_locals original_image) _) as [o [st | e]] eqn:Hrun;
    [discriminate |].
  injection Hplot as <- _. exact (for_results_raise_prints _ _ _ _ _ _ Hrun).
Qed.

Lemma main_uncaught_witness :
  main (Scenario.seg_world Scenario.ok_empty
          (fun _ =>
             Ok (VList [Scenario.entry "sky" VNone;
                        VDict [("label", VList []);
                               ("mask", VImage Scenario.top_row_mask)]])))
  = {| stdout := ["API Response:"; "[]";
                  "Unexpected mask type for sky: <class 'NoneType'>"]%string;
       traceback := Some (Exn TypeError "unhashable type: 'list'");
       exit_code := 1 |}.
Proof.
  exact (proj1 (main_uncaught
                  (Scenario.seg_world Scenario.ok_empty
                     (fun _ =>
                        Ok (VList [Scenario.entry "sky" VNone;
                                   VDict [("label", VList []);
                                          ("mask", VImage Scenario.top_row_mask)]])))
                  Scenario.image_2x2
                  [Scenario.entry "sky" VNone;
                   VDict [("label", VList []); ("mask", VImage Scenario.top_row_mask)]]
                  ["API Response:"; "[]";
                   "Unexpected mask type for sky: <class 'NoneType'>"]%string
                  TypeError "unhashable type: 'list'" eq_refl eq_refl eq_refl)).
Defined.

(** X14. An answer of status 200 whose JSON is an object with at least
    one key, such as an error report, is not a list of results: the loop
    visits its keys, the first [result.get] raises [AttributeError], and the
    script ends on the traceback with exit code 1 after printing the
    answer. *)
Theorem main_object_answer (w : world) (original_image : grid rgb)
    (key : string) (v : value) (items : list (string * value)) :
  image_open w "image-of-road.jpg" = Ok original_image ->
  query_image w "image-of-road.jpg" = Ok (VDict ((key, v) :: items)) ->
  main w =
  {| stdout := response_lines w (VDict ((key, v) :: items));
     traceback := Some (Exn AttributeError "'str' object has no attribute 'get'");
     exit_code := 1 |}.
Proof.
  intros Himg Hq. now rewrite main_cases, Himg, Hq.
Qed.

Lemma main_object_answer_witness :
  main (Scenario.seg_world Scenario.ok_empty
          (fun _ => Ok (VDict [("error", VStr "Model is loading")])))
  = {| stdout := ["API Response:"; "[]"]%string;
       traceback := Some (Exn AttributeError "'str' object has no attribute 'get'");
       exit_code := 1 |}.
Proof.
  exact (main_object_answer
           (Scenario.seg_world Scenario.ok_empty
              (fun _ => Ok (VDict [("error", VStr "Model is loading")])))
           Scenario.image_2x2 "error" (VStr "Model is loading") [] eq_refl eq_refl).
Defined.

(** *** The legend *)

Lemma unit_channel (c : Z) : 0 <= c <= 255 -> (0 <= inject_Z c / 255 <= 1)%Q.
Proof.
  intros H. unfold Qle, Qdiv, Qmult, Qinv, inject_Z. cbn. lia.
Qed.

Lemma facecolor_make_patch (m : color_map) :
  map facecolor (map make_patch m) = map unit_scale (map snd m).
Proof.
  induction m as [| [k [[r g] b]] m IH]; cbn; [| rewrite IH]; reflexivity.
Qed.

Lemma unit_scale_unit (c : rgb) : is_uint8 c = true -> unit_color (unit_scale c).
Proof.
  intros H. apply is_uint8_bounds in H. destruct c as [[r g] b].
  destruct H as (Hr & Hg & Hb). cbn. auto using unit_channel.
Qed.

(** X17. The legend of a figure that was drawn holds valid colors in
    palette order: the face color of patch number k is palette[k mod 10]
    with each channel divided by 255, three values between 0 and 1. *)
Theorem legend_facecolors (w : world) (orig_np : grid rgb) (results : list value)
    (output_path : string) (out out' : list string) (fig : figure) :
  plot_segmentation_map w orig_np (VList results) output_path out = (out', Ok fig) ->
  map facecolor (legend fig)
  = map (fun k => unit_scale (nth (k mod 10) palette black))
      (seq 0 (List.length (legend fig))) /\
  Forall (fun p => unit_color (facecolor p)) (legend fig).
Proof.
  rewrite plot_segmentation_map_list.
  destruct (for_results w results (init_locals orig_np) out) as [o [st | e]] eqn:Hrun;
    [| discriminate].
  intros H. injection H as _ <-. cbn [legend].
  assert (compose_overlay w orig_np (VList results) out = (o, Ok st)) as Hcomp
      by now rewrite compose_overlay_list.
  destruct (compose_overlay_map _ _ _ _ _ _ Hcomp) as [_ Hcolors].
  assert (map facecolor (map make_patch (label_to_color st))
          = map (fun k => unit_scale (nth (k mod 10) palette black))
              (seq 0 (List.length (map make_patch (label_to_color st))))) as Hface.
  { rewrite facecolor_make_patch, Hcolors, length_map, map_map. reflexivity. }
  split; [exact Hface |].
  apply Forall_forall. intros p Hp.
  assert (In (facecolor p) (map facecolor (map make_patch (label_to_color st)))) as Hin
      by now apply in_map.
  rewrite Hface in Hin. apply in_map_iff in Hin as (k & <- & _).
  apply unit_scale_unit, palette_uint8. apply (palette_at_in k).
Qed.

Lemma legend_facecolors_witness :
  match plot_segmentation_map Scenario.quiet_world Scenario.image_2x2
          (VList Scenario.mixed_results) "map.png" [] with
  | (_, Ok fig) =>
      map facecolor (legend fig)
      = [(230 # 255, 25 # 255, 75 # 255); (60 # 255, 180 # 255, 75 # 255)]
  | (_, Raise _) => False
  end.
Proof.
  destruct (plot_segmentation_map Scenario.quiet_world Scenario.image_2x2
              (VList Scenario.mixed_results) "map.png" [])
    as [out' [fig | e]] eqn:Hrun.
  - rewrite (proj1 (legend_facecolors _ _ _ _ _ _ _ Hrun)).
    vm_compute in Hrun. injection Hrun as _ <-. reflexivity.
  - vm_compute in Hrun. discriminate Hrun.
Defined.

(** *** query_image *)

(** X18. [query_image] returns a value only for an answer of status
    exactly 200 whose body is JSON, the value being that JSON: any other
    status, 2xx ones included, gives no result. *)
Theorem query_image_ok_iff (w : world) (image_path : string) (v : value) :
  query_image w image_path = Ok v <->
  exists data r,
    read_bytes w image_path = Ok data /\
    post w API_URL (headers w) data = Ok r /\
    status_code r = 200 /\
    json_loads w (text r) = Ok v.
Proof.
  unfold query_image, response_json. split.
  - destruct (read_bytes w image_path) as [data | e]; [| discriminate]. cbn [rbind].
    destruct (post w API_URL (headers w) data) as [r | e] eqn:Hpost; [| discriminate].
    cbn [rbind]. destruct (status_code r =? 200) eqn:Hs; [| discriminate].
    cbn [negb]. intros Hj. apply Z.eqb_eq in Hs. exists data, r. auto.
  - intros (data & r & -> & Hpost & Hs & Hj). cbn [rbind]. rewrite Hpost. cbn [rbind].
    now rewrite Hs.
Qed.

End SegmentationExtras.

(* ===================================================================== *)
(** ** The overlay, skipped entries and unlabelled entries *)
(* ===================================================================== *)

Module OverlayProofs.
Import Py PyNotations Segmentation Spec Props SegmentationProofs SegmentationExtras.
Local Open Scope list_scope.

(** C5. The overlay starts with the height and width of the original
    image, every pixel black.  After a loop that ran to its end it has the
    same height and width, and each pixel holds the color that the label of
    the last result, in input order, whose binary mask is True there has in
    the color map, or black when no mask covers it: a later result
    overwrites an earlier one.  The image a call shows is the one blend of
    the original with that final overlay: for a rectangular original of
    8-bit channels, each pixel is the sum of the original pixel and the
    overlay pixel, halved with the half dropped. *)
Theorem overlay_is_last_write_wins (w : world) (orig_np : grid rgb)
    (results : list value) (out out' : list string) (st : locals) :
  compose_overlay w orig_np (VList results) out = (out', Ok st) ->
  let '(height, width) := shape orig_np in
  has_shape (overlay (init_locals orig_np)) height width /\
  (forall i j, pixel black (overlay (init_locals orig_np)) i j = black) /\
  has_shape (overlay st) height width /\
  (forall i j,
      match last_covering w results i j with
      | Some r =>
          exists c,
            color_lookup (entry_label r) (label_to_color st) = Some c /\
            pixel black (overlay st) i j = c
      | None => pixel black (overlay st) i j = black
      end) /\
  (forall output_path o fig,
      plot_segmentation_map w orig_np (VList results) output_path out = (o, Ok fig) ->
      rectangular orig_np ->
      uint8_image orig_np = true ->
      forall i j,
        pixel black (shown fig) i j
        = half_sum (pixel black orig_np i j) (pixel black (overlay st) i j)).
Proof.
  intros Hcomp. pose proof Hcomp as Hrun. rewrite compose_overlay_list in Hrun.
  pose proof (init_locals_shape orig_np) as Hinit.
  pose proof (for_results_shape _ _ _ _ _ _ _ _ Hrun Hinit) as Hshape.
  destruct (shape orig_np) as [height width] eqn:Hsh. cbn [fst snd] in Hinit, Hshape.
  split; [exact Hinit |]. split; [apply init_overlay_black |].
  split; [exact Hshape |]. split.
  - intros i j. pose proof (for_results_painted _ _ _ _ _ _ i j Hrun) as Hp.
    destruct (last_covering w results i j); [exact Hp |].
    now rewrite Hp, init_overlay_black.
  - intros output_path o fig Hplot Hrect Huint i j.
    rewrite plot_segmentation_map_list, Hrun in Hplot. injection Hplot as _ <-.
    cbn [shown]. unfold rectangular in Hrect. rewrite Hsh in Hrect.
    cbn [fst snd] in Hrect.
    rewrite (pixel_blend _ _ i j
               (rows_match_shape _ _ _ _ Hrect (has_shape_grid _ _ _ Hshape))).
    apply blend_pixel_half_sum.
    + unfold pixel. apply nth_forallb; [| reflexivity].
      apply (nth_forallb (forallb is_uint8)); [exact Huint | reflexivity].
    + exact (overlay_pixel_uint8 w orig_np results out out' st i j Hcomp).
Qed.

Lemma overlay_is_last_write_wins_witness :
  exists st,
    snd (compose_overlay Scenario.quiet_world Scenario.image_2x2
           (VList Scenario.overlapping_results) []) = Ok st /\
    (exists c,
        color_lookup (VStr "tree") (label_to_color st) = Some c /\
        pixel black (overlay st) 0 0 = c) /\
    (exists c,
        color_lookup (VStr "grass") (label_to_color st) = Some c /\
        pixel black (overlay st) 0 1 = c) /\
    pixel black (overlay st) 1 1 = black.
Proof.
  eexists. split; [reflexivity |].
  destruct (overlay_is_last_write_wins Scenario.quiet_world Scenario.image_2x2
              Scenario.overlapping_results [] _ _ eq_refl)
    as (_ & _ & _ & Hpx & _).
  split; [exact (Hpx 0%nat 0%nat) |]. split; [exact (Hpx 0%nat 1%nat) |].
  exact (Hpx 1%nat 1%nat).
Defined.

(** C8 fails as stated: a mask that is the string "abc" is neither base64
    nor an image object, and its entry is not skipped: [base64.b64decode]
    raises, nothing is printed and no figure is drawn. *)
Lemma undecodable_string_is_not_skipped :
  plot_segmentation_map Runs.seg_utf8_world Scenario.image_2x2
    (VList Runs.bad_base64_results) "segmentation_map.png" []
  = ([], Raise (Exn BinasciiError "Incorrect padding")).
Proof. reflexivity. Qed.

(** C8, amended. An entry (a dict) whose mask is neither a str nor an image
    object is skipped: when stdout takes the diagnostic, its turn of the
    loop prints it, raises nothing and leaves the overlay and the color map
    as they were; the loop over the results goes on to the same end as
    without the entry; and if the run without the entry draws a figure, the
    run with it draws the same figure, the diagnostic being among the lines
    printed.  When stdout refuses the diagnostic, the turn raises.  A mask
    that is a str is always taken for base64: when it does not decode, the
    turn raises instead of skipping. *)
Theorem unrecognized_mask_is_skipped (w : world) (items : list (string * value)) :
  (mask_recognized (VDict items) = false ->
   (is_ok (stdout_write w (diagnostic w (VDict items))) = true ->
    (forall st out,
        loop_body w (VDict items) st out =
        (out ++ [diagnostic w (VDict items)], Ok st)) /\
    (forall before after st out,
        snd (for_results w (before ++ VDict items :: after) st out) =
        snd (for_results w (before ++ after) st out)) /\
    (forall before after orig_np output_path out out' fig,
        plot_segmentation_map w orig_np (VList (before ++ after)) output_path out
        = (out', Ok fig) ->
        exists out2,
          plot_segmentation_map w orig_np (VList (before ++ VDict items :: after))
            output_path out = (out2, Ok fig) /\
          In (diagnostic w (VDict items)) out2)) /\
   (forall e st out,
       stdout_write w (diagnostic w (VDict items)) = Raise e ->
       loop_body w (VDict items) st out = (out, Raise e))) /\
  (forall s e st out,
      dict_get "mask" items = Some (VStr s) ->
      open_b64_image w s = Raise e ->
      loop_body w (VDict items) st out = (out, Raise e)).
Proof.
  split.
  - intros Hm. split.
    + intros Hw. split; [| split].
      * intros st out. now apply loop_body_skip.
      * intros before after st out.
        destruct (for_results_skip w items before after st out Hm Hw) as (o & -> & _).
        reflexivity.
      * intros before after orig_np output_path out out' fig.
        rewrite !plot_segmentation_map_list.
        destruct (for_results_skip w items before after (init_locals orig_np) out Hm Hw)
          as (o & -> & Hin).
        destruct (for_results w (before ++ after) (init_locals orig_np) out)
          as [o' [st | e]]; cbn [snd] in *; [| discriminate].
        intros H. injection H as <- <-.
        eexists. split; [reflexivity |].
        apply in_or_app. left. now apply (Hin st).
    + intros e st out Hw. now apply loop_body_unprintable.
  - intros s e st out Hmask He. now apply loop_body_undecodable with (s := s).
Qed.

Lemma unrecognized_mask_is_skipped_witness :
  (exists out2 fig,
      plot_segmentation_map Scenario.quiet_world Scenario.image_2x2
        (VList ([] ++ Scenario.entry "sky" VNone
                   :: [Scenario.entry "grass" (VImage Scenario.top_row_mask)]))
        "segmentation_map.png" [] = (out2, Ok fig) /\
      In "Unexpected mask type for sky: <class 'NoneType'>"%string out2 /\
      shown fig = [[(165, 62, 87); (165, 62, 87)]; [(50, 50, 50); (50, 50, 50)]]) /\
  loop_body Runs.seg_utf8_world (Scenario.entry Runs.lone_surrogate VNone)
    (init_locals Scenario.image_2x2) []
  = ([], Raise (Exn UnicodeEncodeError
                  "'utf-8' codec can't encode character '\ud800' in position 25: surrogates not allowed")) /\
  loop_body Runs.seg_utf8_world (Scenario.entry "sky" (VStr "abc"))
    (init_locals Scenario.image_2x2) []
  = ([], Raise (Exn BinasciiError "Incorrect padding")).
Proof.
  split; [| split].
  - destruct (proj2 (proj2 (proj1 (proj1 (unrecognized_mask_is_skipped
                                            Scenario.quiet_world
                                            [("label", VStr "sky"); ("mask", VNone)])
                                     eq_refl) eq_refl))
                [] [Scenario.entry "grass" (VImage Scenario.top_row_mask)]
                Scenario.image_2x2 "segmentation_map.png"%string [] _ _ eq_refl)
      as (out2 & Hrun & Hin).
    exists out2. eexists. split; [exact Hrun |]. split; [exact Hin | reflexivity].
  - apply (proj2 (proj1 (unrecognized_mask_is_skipped Runs.seg_utf8_world
                           [("label", VStr Runs.lone_surrogate); ("mask", VNone)])
                    eq_refl)).
    reflexivity.
  - apply (proj2 (unrecognized_mask_is_skipped Runs.seg_utf8_world
                    [("label", VStr "sky"); ("mask", VStr "abc")])
             "abc"%string); reflexivity.
Defined.

(** *** Entries without a label *)

Lemma color_lookup_str_in (s : string) (m : color_map) (c : rgb) :
  color_lookup (VStr s) m = Some c -> In (VStr s, c) m.
Proof.
  induction m as [| [k c0] m IH]; cbn; [discriminate |].
  destruct (key_eqb k (VStr s)) eqn:E.
  - intros H. injection H as ->. left. f_equal.
    destruct k; cbn in E; try discriminate.
    apply String.eqb_eq in E. now subst.
  - intros H. right. now apply IH.
Qed.

Lemma make_patch_fields (label : value) (c : rgb) :
  patch_label (make_patch (label, c)) = label /\
  facecolor (make_patch (label, c)) = unit_scale c.
Proof. now destruct c as [[r g] b]. Qed.

(** In a loop that ran to its end, every mask of a recognized type was
    decoded. *)
Lemma for_results_recognized_decodes (w : world) (results : list value)
    (st st' : locals) (out out' : list string) (h wd : nat) (r : value) :
  has_shape (overlay st) h wd ->
  for_results w results st out = (out', Ok st') ->
  In r results ->
  mask_recognized r = true ->
  decodes w r = true.
Proof.
  intros Hshape Hrun Hin Hm.
  pose proof (for_results_entries_ok _ _ _ _ _ _ _ _ Hshape Hrun) as Hok.
  pose proof (proj1 (forallb_forall _ _) Hok r Hin) as Hr.
  unfold entry_ok in Hr. destruct r; try discriminate.
  rewrite Hm in Hr. cbn [negb andb orb] in Hr. unfold decodes.
  destruct (entry_mask w (VDict items)); [reflexivity | discriminate].
Qed.

(** C10. An entry without a "label" field is handled as the same entry
    labelled "unknown", in its own turn of the loop and so in every run it
    is part of.  If its mask is of no recognized type, the diagnostic names
    "unknown".  Otherwise, after a turn that raises nothing, "unknown" is in
    the color map, its color fills the pixels the mask covers, and the
    patches made from the map hold one labelled "unknown" whose face color
    is that color with each channel divided by 255; and the legend of any
    figure drawn from results that hold the entry has a patch labelled
    "unknown" with a palette color. *)
Theorem missing_label_is_unknown (w : world) (items : list (string * value)) :
  dict_get "label" items = None ->
  let labelled := VDict (("label", VStr "unknown") :: items) in
  entry_label (VDict items) = VStr "unknown" /\
  (forall st out, loop_body w (VDict items) st out = loop_body w labelled st out) /\
  (forall before after st out,
      for_results w (before ++ VDict items :: after) st out =
      for_results w (before ++ labelled :: after) st out) /\
  (mask_recognized (VDict items) = false ->
   forall st out,
     let line := ("Unexpected mask type for unknown: "
                    ++ str_type (entry_mask_data (VDict items)))%string in
     loop_body w (VDict items) st out =
     match stdout_write w line with
     | Ok _ => (out ++ [line], Ok st)
     | Raise e => (out, Raise e)
     end) /\
  (forall st out st' out',
      mask_recognized (VDict items) = true ->
      loop_body w (VDict items) st out = (out', Ok st') ->
      exists c,
        color_lookup (VStr "unknown") (label_to_color st') = Some c /\
        (forall i j, covers w i j (VDict items) = true ->
                     pixel black (overlay st') i j = c) /\
        exists p,
          In p (map make_patch (label_to_color st')) /\
          patch_label p = VStr "unknown" /\
          facecolor p = unit_scale c) /\
  (forall before after orig_np output_path out out' fig,
      mask_recognized (VDict items) = true ->
      plot_segmentation_map w orig_np (VList (before ++ VDict items :: after))
        output_path out = (out', Ok fig) ->
      exists p c,
        In p (legend fig) /\
        patch_label p = VStr "unknown" /\
        In c palette /\
        facecolor p = unit_scale c).
Proof.
  intros Hl labelled.
  assert (entry_label (VDict items) = VStr "unknown") as Hlabel
      by (unfold entry_label; now rewrite Hl).
  assert (forall st out, loop_body w (VDict items) st out = loop_body w labelled st out)
    as Hsame.
  { intros st out. unfold labelled. rewrite !loop_body_dict. unfold diagnostic.
    change (entry_mask_data (VDict (("label", VStr "unknown") :: items)))
      with (entry_mask_data (VDict items)).
    change (entry_label (VDict (("label", VStr "unknown") :: items)))
      with (VStr "unknown").
    rewrite Hlabel. reflexivity. }
  assert (forall st out st' out',
             mask_recognized (VDict items) = true ->
             loop_body w (VDict items) st out = (out', Ok st') ->
             exists c,
               color_lookup (VStr "unknown") (label_to_color st') = Some c /\
               forall i j, covers w i j (VDict items) = true ->
                           pixel black (overlay st') i j = c) as Hturn.
  { intros st out st' out' Hm Hrun.
    destruct (loop_body_inv _ _ _ _ _ _ Hrun)
      as [(Hm' & _) | (_ & _ & bm & c & Hbm & Hassign & Hset)]; [congruence |].
    rewrite Hlabel in Hassign. exists c.
    split; [exact (assign_color_lookup _ _ _ _ Hassign) |].
    intros i j Hc. unfold covers in Hc. rewrite Hbm in Hc.
    now rewrite (set_masked_pixel _ _ _ _ i j Hset), Hc. }
  split; [exact Hlabel |]. split; [exact Hsame |]. split; [| split; [| split]].
  - intros before after st out. now apply for_results_ext.
  - intros Hm st out line. rewrite loop_body_dict. unfold diagnostic.
    rewrite Hlabel. cbn [py_str]. fold line. unfold mask_recognized in Hm.
    destruct (entry_mask_data (VDict items)); try reflexivity; discriminate.
  - intros st out st' out' Hm Hrun.
    destruct (Hturn st out st' out' Hm Hrun) as (c & Hlook & Hpx).
    exists c. split; [exact Hlook |]. split; [exact Hpx |].
    exists (make_patch (VStr "unknown", c)).
    split; [apply in_map; now apply color_lookup_str_in |].
    apply make_patch_fields.
  - intros before after orig_np output_path out out' fig Hm Hplot.
    rewrite plot_segmentation_map_list in Hplot.
    destruct (for_results w (before ++ VDict items :: after) (init_locals orig_np) out)
      as [o [st | e]] eqn:Hrun; [| discriminate].
    injection Hplot as _ <-. cbn [legend].
    assert (In (VDict items) (before ++ VDict items :: after)) as Hin
        by (apply in_or_app; right; now left).
    pose proof (for_results_recognized_decodes _ _ _ _ _ _ _ _ _
                  (init_locals_shape orig_np) Hrun Hin Hm) as Hd.
    destruct (for_results_assigned _ _ _ _ _ _ _ Hrun Hin Hd) as (c & Hlook).
    rewrite Hlabel in Hlook.
    exists (make_patch (VStr "unknown", c)), c.
    split; [apply in_map; now apply color_lookup_str_in |].
    destruct (make_patch_fields (VStr "unknown") c) as [Hp Hf].
    split; [exact Hp |]. split; [| exact Hf].
    assert (compose_overlay w orig_np (VList (before ++ VDict items :: after)) out
            = (o, Ok st)) as Hcomp by now rewrite compose_overlay_list.
    apply (proj1 (Forall_forall _ _) (compose_overlay_palette _ _ _ _ _ _ Hcomp)).
    now apply color_lookup_in with (label := VStr "unknown").
Qed.

Lemma missing_label_is_unknown_witness :
  match plot_segmentation_map Scenario.quiet_world Scenario.image_2x2
          (VList ([] ++ VDict Scenario.unlabeled :: [])) "map.png" [] with
  | (_, Ok fig) =>
      exists p c,
        In p (legend fig) /\ patch_label p = VStr "unknown" /\
        In c palette /\ facecolor p = unit_scale c
  | (_, Raise _) => False
  end.
Proof.
  destruct (plot_segmentation_map Scenario.quiet_world Scenario.image_2x2
              (VList ([] ++ VDict Scenario.unlabeled :: [])) "map.png" [])
    as [out' [fig | e]] eqn:Hrun.
  - exact (proj2 (proj2 (proj2 (proj2 (proj2
             (missing_label_is_unknown Scenario.quiet_world Scenario.unlabeled
                eq_refl)))))
             [] [] Scenario.image_2x2 "map.png"%string [] out' fig eq_refl Hrun).
  - vm_compute in Hrun. discriminate Hrun.
Defined.

End OverlayProofs.
